(** * mantine-ui-server: the documentation cache and the page extractor

    A shallow embedding of [src/utils/cache.ts] (the second document of
    [src/src/index.ts]) and of [src/documentation/fetcher.ts].

    Conventions of the embedding.
    - A JavaScript string is a [string]; its characters stand for UTF-16
      code units below 128, and case conversion acts on the letters
      a-z / A-Z only: the properties that depend on case conversion
      assume text made of such characters.
    - The in-process store [memoryCache] (a JS object used as a map) is a
      [gmap string CacheEntry]; keys are own properties of the object.
      The one key for which a plain object differs from a map is
      [__proto__] (assigning it sets the prototype, [delete] and
      [Object.keys] do not see it): the properties that depend on the
      difference assume a key other than [__proto__] and a store without
      an entry under it.
    - The cache directory is a [gmap] from paths to file contents; the text
      of a file is represented by what [JSON.parse] makes of it.
    - [Date.now()] is the argument [now] of the operations (milliseconds).
    - Exceptions are explicit: an operation yields [Ok a] or [Throw msg]
      together with the next state of the world. *)

From Stdlib Require Import ZArith Ascii DecimalString.
From stdpp Require Import gmap strings list.

Local Open Scope Z_scope.

(* ===================================================================== *)
(** ** JavaScript string primitives used by the two modules *)
(* ===================================================================== *)

Module JsString.

Definition code (c : ascii) : nat := nat_of_ascii c.

Definition isDigit (c : ascii) : bool :=
  ((48 <=? code c) && (code c <=? 57))%nat.
Definition isLower (c : ascii) : bool :=
  ((97 <=? code c) && (code c <=? 122))%nat.
Definition isUpper (c : ascii) : bool :=
  ((65 <=? code c) && (code c <=? 90))%nat.

(** The character class [[a-z0-9]] under the flag [i]. *)
Definition isAlnum (c : ascii) : bool := isLower c || isUpper c || isDigit c.

Definition toLowerChar (c : ascii) : ascii :=
  if isUpper c then ascii_of_nat (code c + 32) else c.
Definition toUpperChar (c : ascii) : ascii :=
  if isLower c then ascii_of_nat (code c - 32) else c.

Fixpoint map (f : ascii → ascii) (s : string) : string :=
  match s with
  | EmptyString => EmptyString
  | String c r => String (f c) (map f r)
  end.

Definition toLowerCase : string → string := map toLowerChar.

(** [s.charAt(0).toUpperCase() + s.slice(1)] *)
Definition capitalize (s : string) : string :=
  match s with
  | EmptyString => EmptyString
  | String c r => String (toUpperChar c) r
  end.

(** [s.startsWith(p)] *)
Fixpoint startsWith (p s : string) : bool :=
  match p, s with
  | EmptyString, _ => true
  | String a p', String b s' => if decide (a = b) then startsWith p' s' else false
  | String _ _, EmptyString => false
  end.

(** [s.endsWith(p)]: [p] is a suffix of [s]. *)
Fixpoint endsWith (p s : string) : bool :=
  if decide (s = p) then true
  else match s with
       | EmptyString => false
       | String _ r => endsWith p r
       end.

(** [s.split(sep)] for a one-character separator. *)
Fixpoint split (sep : ascii) (s : string) : list string :=
  match s with
  | EmptyString => [EmptyString]
  | String c r =>
      if decide (c = sep) then EmptyString :: split sep r
      else match split sep r with
           | seg :: rest => String c seg :: rest
           | [] => [String c EmptyString]
           end
  end.

(** A string is truthy when it is not empty. *)
Definition truthy (s : string) : bool :=
  match s with EmptyString => false | String _ _ => true end.

(** [s.includes(c)] for a one-character needle. *)
Fixpoint includes (c : ascii) (s : string) : bool :=
  match s with
  | EmptyString => false
  | String a r => if decide (a = c) then true else includes c r
  end.

Fixpoint trimStart (s : string) : string :=
  match s with
  | EmptyString => EmptyString
  | String c r => if Ascii.is_space c then trimStart r else s
  end.

(** [s.trim()] *)
Definition trim (s : string) : string :=
  String.rev (trimStart (String.rev (trimStart s))).

(** [key.replace(/[^a-z0-9]/gi, '_')] *)
Definition sanitize : string → string :=
  map (λ c, if isAlnum c then c else "_"%char).

End JsString.

(* ===================================================================== *)
(** ** State and exceptions *)
(* ===================================================================== *)

Module Eff.

Inductive Result (A : Type) : Type :=
| Ok (a : A)
| Throw (err : string).
Arguments Ok {A} a.
Arguments Throw {A} err.

(** A computation over a world [W]: a result or an exception, and the
    world it leaves behind. *)
Definition M (W A : Type) : Type := W → Result A * W.

Definition ret {W A} (a : A) : M W A := λ w, (Ok a, w).
Definition throw {W A} (err : string) : M W A := λ w, (Throw err, w).

Definition bind {W A B} (m : M W A) (k : A → M W B) : M W B :=
  λ w, match m w with
       | (Ok a, w') => k a w'
       | (Throw err, w') => (Throw err, w')
       end.

(** [try { m } catch (error) { handler(error) }] *)
Definition tryCatch {W A} (m : M W A) (handler : string → M W A) : M W A :=
  λ w, match m w with
       | (Ok a, w') => (Ok a, w')
       | (Throw err, w') => handler err w'
       end.

Definition gets {W A} (f : W → A) : M W A := λ w, (Ok (f w), w).
Definition modify {W} (f : W → W) : M W unit := λ w, (Ok tt, f w).

End Eff.

Notation "'do' x <- m ; k" := (Eff.bind m (λ x, k))
  (at level 10, x name, m at level 100, k at level 200).
Notation "'do' '_' <- m ; k" := (Eff.bind m (λ _, k))
  (at level 10, m at level 100, k at level 200).

(* ===================================================================== *)
(** ** JavaScript values and their JSON image *)
(* ===================================================================== *)

Module Json.

(** The values a cache entry can carry. *)
#[local] Unset Elimination Schemes.
Inductive JsValue : Type :=
| JUndefined
| JNull
| JBool (b : bool)
| JNum (n : Z)
| JStr (s : string)
| JDate (ms : Z)
| JArr (items : list JsValue)
| JObj (props : list (string * JsValue)).
#[local] Set Elimination Schemes.

Definition digit (n : Z) : ascii := ascii_of_nat (48 + Z.to_nat n).

(** The last [width] decimal digits of [n], zero padded. *)
Fixpoint pad (width : nat) (n : Z) : string :=
  match width with
  | O => EmptyString
  | S w => pad w (n / 10) +:+ String (digit (n mod 10)) EmptyString
  end.

(** Year, month and day of a day count from 1970-01-01 in the proleptic
    Gregorian calendar. *)
Definition civilFromDays (days : Z) : Z * Z * Z :=
  let z := days + 719468 in
  let era := z / 146097 in
  let doe := z - era * 146097 in
  let yoe := (doe - doe / 1460 + doe / 36524 - doe / 146096) / 365 in
  let doy := doe - (365 * yoe + yoe / 4 - yoe / 100) in
  let mp := (5 * doy + 2) / 153 in
  let d := doy - (153 * mp + 2) / 5 + 1 in
  let m := if mp <? 10 then mp + 3 else mp - 9 in
  let y := yoe + era * 400 + (if m <=? 2 then 1 else 0) in
  (y, m, d).

(** [new Date(ms).toISOString()], which is also [Date.prototype.toJSON]. *)
Definition toISOString (ms : Z) : string :=
  let '(y, m, d) := civilFromDays (ms / 86400000) in
  let t := ms mod 86400000 in
  let year :=
    if (0 <=? y) && (y <=? 9999) then pad 4 y
    else (if y <? 0 then "-" else "+") +:+ pad 6 (Z.abs y) in
  year +:+ "-" +:+ pad 2 m +:+ "-" +:+ pad 2 d +:+ "T" +:+
  pad 2 (t / 3600000) +:+ ":" +:+ pad 2 (t / 60000 mod 60) +:+ ":" +:+
  pad 2 (t / 1000 mod 60) +:+ "." +:+ pad 3 (t mod 1000) +:+ "Z".

(** [JSON.parse(JSON.stringify({data: v})).data]: a date becomes its ISO
    string, [undefined] becomes [null] inside an array and drops the
    property inside an object; a property [data: undefined] is dropped and
    reads back as [undefined]. *)
Fixpoint jsonRoundtrip (v : JsValue) : JsValue :=
  match v with
  | JDate ms => JStr (toISOString ms)
  | JArr items =>
      JArr ((fix go (l : list JsValue) : list JsValue :=
               match l with
               | [] => []
               | JUndefined :: r => JNull :: go r
               | x :: r => jsonRoundtrip x :: go r
               end) items)
  | JObj props =>
      JObj ((fix go (l : list (string * JsValue)) : list (string * JsValue) :=
               match l with
               | [] => []
               | (_, JUndefined) :: r => go r
               | (k, x) :: r => (k, jsonRoundtrip x) :: go r
               end) props)
  | _ => v
  end.


End Json.

(* ===================================================================== *)
(** ** utils/cache.ts *)
(* ===================================================================== *)

Module Cache.
Import JsString Eff Json.

(** [CacheEntry<T>]. The timestamp is the instant in milliseconds: a
    [Date] in memory and its ISO string in a file denote the same
    instant, and [new Date(entry.timestamp).getTime()] reads it from
    both. *)
Record CacheEntry : Type := {
  data : JsValue;
  timestamp : Z;
  version : string;
}.

Inductive Storage : Type := memory | file.

Record CacheConfig : Type := {
  ttl : Z;
  storage : Storage;
}.

(** The text of a cache file: either the serialization of an entry or
    something [JSON.parse] rejects. A well-formed JSON text of another
    shape is not represented. *)
Inductive FileContent : Type :=
| EntryJson (e : CacheEntry)
| Garbled (text : string).

(** Which file-system calls fail in the current environment. *)
Record FsFaults : Type := {
  mkdirFails : bool;
  writeFails : bool;
  readFails : bool;
}.

Record World : Type := {
  memoryCache : gmap string CacheEntry;
  dirExists : bool;
  files : gmap string FileContent;
  faults : FsFaults;
  console : list string;
}.

Definition setMemory (f : gmap string CacheEntry → gmap string CacheEntry)
    (w : World) : World :=
  {| memoryCache := f (memoryCache w); dirExists := dirExists w;
     files := files w; faults := faults w; console := console w |}.

Definition setDirExists (b : bool) (w : World) : World :=
  {| memoryCache := memoryCache w; dirExists := b;
     files := files w; faults := faults w; console := console w |}.

Definition setFiles (f : gmap string FileContent → gmap string FileContent)
    (w : World) : World :=
  {| memoryCache := memoryCache w; dirExists := dirExists w;
     files := f (files w); faults := faults w; console := console w |}.

Definition addConsole (line : string) (w : World) : World :=
  {| memoryCache := memoryCache w; dirExists := dirExists w;
     files := files w; faults := faults w; console := console w ++ [line] |}.

(** *** The [fs], [JSON] and [console] calls *)

Definition existsSyncDir : M World bool := gets dirExists.

Definition mkdirSync : M World unit :=
  λ w, if mkdirFails (faults w)
       then (Throw "EACCES: permission denied, mkdir", w)
       else (Ok tt, setDirExists true w).

Definition existsSync (path : string) : M World bool :=
  gets (λ w, bool_decide (is_Some (files w !! path))).

Definition writeFileSync (path : string) (content : FileContent) : M World unit :=
  λ w, if writeFails (faults w)
       then (Throw "EACCES: permission denied, open", w)
       else if dirExists w
       then (Ok tt, setFiles <[path := content]> w)
       else (Throw "ENOENT: no such file or directory, open", w).

Definition readFileSync (path : string) : M World FileContent :=
  λ w, if readFails (faults w)
       then (Throw "EACCES: permission denied, open", w)
       else match files w !! path with
            | Some c => (Ok c, w)
            | None => (Throw "ENOENT: no such file or directory, open", w)
            end.

(** [JSON.stringify(entry)] *)
Definition stringify (e : CacheEntry) : FileContent :=
  EntryJson {| data := jsonRoundtrip (data e);
               timestamp := timestamp e;
               version := version e |}.

(** [JSON.parse(fileContent) as CacheEntry<T>] *)
Definition parse (c : FileContent) : M World CacheEntry :=
  match c with
  | EntryJson e => ret e
  | Garbled _ => throw "SyntaxError: Unexpected token in JSON"
  end.

Definition consoleError (line : string) : M World unit :=
  modify (addConsole line).

(** *** The module *)

Section WithHome.
(** [os.homedir()] *)
Variable homedir : string.

Definition CACHE_DIR : string := homedir +:+ "/.mantine-mcp-cache".

Definition ensureCacheDir : M World unit :=
  do present <- existsSyncDir;
  if negb present then mkdirSync else ret tt.

Definition getCacheFilePath (key : string) : string :=
  CACHE_DIR +:+ "/" +:+ (sanitize key +:+ ".json").

Definition isValidCacheEntry (now : Z) (entry : CacheEntry) (ttl : Z)
    (currentVersion : string) : bool :=
  if bool_decide (ttl = 0) then false
  else if negb (bool_decide (version entry = currentVersion)) then false
  else
    let entryTimestamp := timestamp entry in
    bool_decide (now - entryTimestamp < ttl).

Definition setCache (now : Z) (key : string) (value : JsValue)
    (config : CacheConfig) (version : string) : M World unit :=
  let entry := {| data := value; timestamp := now; version := version |} in
  do _ <- modify (setMemory <[key := entry]>);
  match storage config with
  | file =>
      do _ <- ensureCacheDir;
      let filePath := getCacheFilePath key in
      writeFileSync filePath (stringify entry)
  | memory => ret tt
  end.

(** The [if (config.storage === 'file') { try ... catch ... }] block of
    [getCache] followed by its [return null]. *)
Definition getCacheFromFile (now : Z) (key : string) (config : CacheConfig)
    (currentVersion : string) : M World (option JsValue) :=
  match storage config with
  | file =>
      tryCatch
        (let filePath := getCacheFilePath key in
         do present <- existsSync filePath;
         if present then
           do fileContent <- readFileSync filePath;
           do fileEntry <- parse fileContent;
           if isValidCacheEntry now fileEntry (ttl config) currentVersion
           then
             do _ <- modify (setMemory <[key := fileEntry]>);
             ret (Some (data fileEntry))
           else ret None
         else ret None)
        (λ error,
           do _ <- consoleError
                     ("Error reading cache file for key " +:+ key +:+ ": "
                      +:+ error);
           ret None)
  | memory => ret None
  end.

Definition getCache (now : Z) (key : string) (config : CacheConfig)
    (currentVersion : string) : M World (option JsValue) :=
  do memoryEntry <- gets (λ w, memoryCache w !! key);
  match memoryEntry with
  | Some entry =>
      if isValidCacheEntry now entry (ttl config) currentVersion
      then ret (Some (data entry))
      else getCacheFromFile now key config currentVersion
  | None => getCacheFromFile now key config currentVersion
  end.

End WithHome.

End Cache.

(* ===================================================================== *)
(** ** documentation/fetcher.ts *)
(* ===================================================================== *)

Module Fetcher.
Import JsString Eff.

Record MantineComponentProp : Type := {
  name : string;
  type : string;
  defaultValue : option string;
  description : string;
  required : bool;
}.

Record MantineComponentExample : Type := {
  title : string;
  code : string;
  exampleDescription : option string;
}.

(** [MantineComponentDoc] without the import statement, the package name,
    the version and the fetch time, which the properties below do not
    read. *)
Record MantineComponentDoc : Type := {
  docName : string;
  docDescription : string;
  props : list MantineComponentProp;
  examples : list MantineComponentExample;
  url : string;
  relatedComponents : list string;
}.

(** What the cheerio queries of the extractor return on a page. *)
Record CodeBlock : Type := {
  prevHeading : string;     (* codeBlock.prev('h2, h3').text() *)
  codeText : string;        (* codeBlock.text() *)
  prevParagraph : string;   (* codeBlock.prev('p').text() *)
}.

Record RenderedPage : Type := {
  titleParagraph : string;          (* $('.mantine-Title-root').next('p').text() *)
  tableRows : list (list string);   (* the td texts of each '.mantine-Table-root tbody tr' *)
  codeBlocks : list CodeBlock;      (* each '.mantine-Code-root' *)
  anchors : list (option string);   (* the href of each '.mantine-Anchor-root' *)
}.

Definition MANTINE_DOCS_BASE_URL : string := "https://mantine.dev".

(** [x || undefined] on a string. *)
Definition orUndefined (s : string) : option string :=
  if truthy s then Some s else None.

(** The body of the callback over the table rows; [columns[i]] of a
    missing cell reads as the empty text. *)
Definition pushProp (props : list MantineComponentProp) (columns : list string)
    : list MantineComponentProp :=
  if (4 <=? length columns)%nat then
    props ++ [ {| name := trim (nth 0 columns "");
                  type := trim (nth 1 columns "");
                  defaultValue := orUndefined (trim (nth 2 columns ""));
                  description := trim (nth 3 columns "");
                  required := includes "*" (nth 0 columns "") |} ]
  else props.

Definition extractProps (rows : list (list string)) : list MantineComponentProp :=
  foldl pushProp [] rows.

Definition numberToString (n : nat) : string :=
  NilEmpty.string_of_uint (Nat.to_uint n).

Definition pushExample (acc : list MantineComponentExample * nat) (b : CodeBlock)
    : list MantineComponentExample * nat :=
  let '(examples, i) := acc in
  let title :=
    if truthy (trim (prevHeading b)) then trim (prevHeading b)
    else "Example " +:+ numberToString (i + 1) in
  (examples ++ [ {| title := title;
                    code := trim (codeText b);
                    exampleDescription := orUndefined (trim (prevParagraph b)) |} ],
   S i).

Definition extractExamples (blocks : list CodeBlock) : list MantineComponentExample :=
  (foldl pushExample ([], 0%nat) blocks).1.

(** The body of the callback over the anchors. *)
Definition pushRelated (normalizedName : string) (relatedComponents : list string)
    (href : option string) : list string :=
  match href with
  | Some href =>
      if truthy href && startsWith "/core/" href
         && negb (endsWith (toLowerCase normalizedName) href)
      then
        match last (split "/" href) with
        | Some relatedComponent =>
            if truthy relatedComponent
            then relatedComponents ++ [capitalize relatedComponent]
            else relatedComponents
        | None => relatedComponents
        end
      else relatedComponents
  | None => relatedComponents
  end.

(** [Array.from(new Set(xs))]: first occurrences, in order. *)
Definition fromSet (xs : list string) : list string :=
  foldl (λ seen x, if decide (x ∈ seen) then seen else seen ++ [x]) [] xs.

Definition extractRelated (normalizedName : string) (anchors : list (option string))
    : list string :=
  fromSet (foldl (pushRelated normalizedName) [] anchors).

(** *** The rendering session *)

(** How the puppeteer calls of one extraction end, and the page they
    render. *)
Record Puppeteer : Type := {
  launchFails : bool;
  newPageFails : bool;
  gotoFails : bool;
  selectorTimesOut : bool;
  contentFails : bool;
  closeFails : bool;
  rendered : RenderedPage;
}.

Record World : Type := {
  puppeteer : Puppeteer;
  openBrowsers : nat;
  console : list string;
}.

Definition setOpenBrowsers (f : nat → nat) (w : World) : World :=
  {| puppeteer := puppeteer w; openBrowsers := f (openBrowsers w);
     console := console w |}.

Definition addConsole (line : string) (w : World) : World :=
  {| puppeteer := puppeteer w; openBrowsers := openBrowsers w;
     console := console w ++ [line] |}.

Definition failing (flag : Puppeteer → bool) (err : string) : M World unit :=
  λ w, if flag (puppeteer w) then (Throw err, w) else (Ok tt, w).

Definition launch : M World unit :=
  do _ <- failing launchFails "Failed to launch the browser process";
  modify (setOpenBrowsers S).

Definition newPage : M World unit :=
  failing newPageFails "Protocol error (Target.createTarget)".

Definition goto (url : string) : M World unit :=
  failing gotoFails ("net::ERR_CONNECTION_REFUSED at " +:+ url).

Definition waitForSelector (selector : string) : M World unit :=
  failing selectorTimesOut ("Waiting for selector " +:+ selector +:+ " failed").

Definition content : M World RenderedPage :=
  do _ <- failing contentFails "Execution context was destroyed";
  gets (λ w, rendered (puppeteer w)).

(** [browser.close()]; when it rejects the browser stays open. *)
Definition close : M World unit :=
  do _ <- failing closeFails "Protocol error (Browser.close): Target closed";
  modify (setOpenBrowsers pred).

Definition fetchComponentDocFromWebsite (componentName : string)
    : M World MantineComponentDoc :=
  let normalizedName := capitalize componentName in
  let componentUrl :=
    MANTINE_DOCS_BASE_URL +:+ "/core/" +:+ toLowerCase normalizedName in
  tryCatch
    (do _ <- launch;
     do _ <- newPage;
     do _ <- goto componentUrl;
     do _ <- tryCatch (waitForSelector ".mantine-Code-root") (λ _, ret tt);
     do page <- content;
     do _ <- close;
     ret {| docName := normalizedName;
            docDescription := trim (titleParagraph page);
            props := extractProps (tableRows page);
            examples := extractExamples (codeBlocks page);
            url := componentUrl;
            relatedComponents := extractRelated normalizedName (anchors page) |})
    (λ error,
       do _ <- modify (addConsole ("Error fetching documentation for "
                                   +:+ componentName +:+ ": " +:+ error));
       throw ("Failed to fetch documentation for " +:+ componentName +:+ ": "
              +:+ error)).

End Fetcher.

(* ===================================================================== *)
(** ** The properties in the words of the specification *)
(* ===================================================================== *)

Module Spec.
Import JsString Cache.

(** "an entry is valid iff ttl != 0 AND entry.version == currentVersion
    AND now - entry.timestamp < ttl" *)
Definition valid (now : Z) (entry : CacheEntry) (ttl : Z)
    (currentVersion : string) : Prop :=
  ttl ≠ 0 ∧ version entry = currentVersion ∧ now - timestamp entry < ttl.

(** Two keys that the filename transform cannot tell apart: the same
    length and, position by position, the same character or two
    characters outside [A-Za-z0-9]. *)
Fixpoint confusable (k1 k2 : string) : Prop :=
  match k1, k2 with
  | EmptyString, EmptyString => True
  | String a r1, String b r2 =>
      (a = b ∨ (isAlnum a = false ∧ isAlnum b = false)) ∧ confusable r1 r2
  | _, _ => False
  end.

(** A key the transform leaves as it is. *)
Fixpoint plain (k : string) : Prop :=
  match k with
  | EmptyString => True
  | String c r => (isAlnum c = true ∨ c = "_"%char) ∧ plain r
  end.

(** Text made of characters below 128, the range in which case
    conversion changes the letters a-z / A-Z only. *)
Fixpoint asciiText (s : string) : Prop :=
  match s with
  | EmptyString => True
  | String c r => (code c < 128)%nat ∧ asciiText r
  end.

(** A key that a plain object stores as an own property. *)
Definition ordinaryKey (key : string) : Prop := key ≠ "__proto__".

(** An in-process store that nothing was written to under [__proto__]. *)
Definition ordinaryStore (w : World) : Prop :=
  memoryCache w !! "__proto__" = None.

(** The entry a readable cache file holds for a key. *)
Definition onDisk (homedir : string) (w : World) (key : string)
    (e : CacheEntry) : Prop :=
  readFails (faults w) = false ∧
  files w !! getCacheFilePath homedir key = Some (EntryJson e).

(** "for each row with at least four columns, build a PropEntry from
    columns [name, type, default, description]; required is true iff the
    name column's text contains a required-marker glyph. Rows with fewer
    than four columns are skipped silently." *)
Definition propOfRow (columns : list string)
    : option Fetcher.MantineComponentProp :=
  match columns with
  | c0 :: c1 :: c2 :: c3 :: _ =>
      Some {| Fetcher.name := trim c0;
              Fetcher.type := trim c1;
              Fetcher.defaultValue := Fetcher.orUndefined (trim c2);
              Fetcher.description := trim c3;
              Fetcher.required := includes "*" c0 |}
  | _ => None
  end.

End Spec.

(* ===================================================================== *)
(** ** Concrete situations *)
(* ===================================================================== *)

Module Fixtures.
Import Json Cache.

Definition home : string := "/home/dev".

Definition noFaults : FsFaults :=
  {| mkdirFails := false; writeFails := false; readFails := false |}.

(** A process that has just started on a machine without a cache
    directory. *)
Definition freshWorld : World :=
  {| memoryCache := ∅; dirExists := false; files := ∅;
     faults := noFaults; console := [] |}.

(** The same, with a cache directory that cannot be written. *)
Definition readOnlyWorld : World :=
  {| memoryCache := ∅; dirExists := true; files := ∅;
     faults := {| mkdirFails := false; writeFails := true; readFails := false |};
     console := [] |}.

(** A process that has just started next to a damaged cache file. *)
Definition corruptWorld : World :=
  {| memoryCache := ∅; dirExists := true;
     files := {[ "/home/dev/.mantine-mcp-cache/component_doc_Button_7_16_2.json"
                 := Garbled "{ data: " ]};
     faults := noFaults; console := [] |}.

(** The default configuration of [utils/config.ts]. *)
Definition defaultCaching : CacheConfig :=
  {| ttl := 86400000; storage := file |}.

(** [CACHE_DOCS=false] in [loadConfigFromEnv]. *)
Definition disabledCaching : CacheConfig :=
  {| ttl := 0; storage := memory |}.

Definition buttonKey : string := "component_doc_Button_7.16.2".

(** A documentation record, with its [lastFetchedAt] date. *)
Definition buttonDoc : JsValue :=
  JObj [("name", JStr "Button"); ("lastFetchedAt", JDate 1700000000000)].

(** A record made of JSON data only. *)
Definition plainDoc : JsValue :=
  JObj [("name", JStr "Button"); ("props", JArr [JStr "onClick"])].

End Fixtures.

Module PageFixtures.
Import Fetcher.

(** The page of the end-to-end scenario, with a short row, a link to a
    neighbour given twice and a link to the page itself. *)
Definition buttonPage : RenderedPage :=
  {| titleParagraph := " Button component ";
     tableRows := [ ["onClick"; "() => void"; ""; "Click handler"];
                    ["size"; "MantineSize"; "sm"];
                    ["color *"; "string"; "blue"; "Key of theme.colors"; "extra"] ];
     codeBlocks := [ {| prevHeading := "Usage";
                        codeText := "import { Button } from '@mantine/core';";
                        prevParagraph := "" |} ];
     anchors := [ Some "/core/action-icon"; Some "/core/action-icon";
                  Some "/core/button"; None; Some "/hooks/use-click" ] |}.

(** A page of Button whose only anchor is a capitalized link to itself. *)
Definition selfLinkPage : RenderedPage :=
  {| titleParagraph := "";
     tableRows := [];
     codeBlocks := [];
     anchors := [ Some "/core/Button" ] |}.

(** A page of Button with a link outside [/core/] to a file named after
    the component, capitalized links to other components and the usual
    link to the page itself. *)
Definition mixedCasePage : RenderedPage :=
  {| titleParagraph := "";
     tableRows := [];
     codeBlocks := [];
     anchors := [ Some "https://github.com/mantinedev/mantine/Button";
                  Some "/core/Text"; Some "/core/button";
                  Some "/core/Group"; Some "/core/Text" ] |}.

Definition online (page : RenderedPage) : Puppeteer :=
  {| launchFails := false; newPageFails := false; gotoFails := false;
     selectorTimesOut := false; contentFails := false; closeFails := false;
     rendered := page |}.

(** The site cannot be reached: navigation fails. *)
Definition offline : Puppeteer :=
  {| launchFails := false; newPageFails := false; gotoFails := true;
     selectorTimesOut := false; contentFails := false; closeFails := false;
     rendered := buttonPage |}.

Definition start (p : Puppeteer) : World :=
  {| puppeteer := p; openBrowsers := 0; console := [] |}.

End PageFixtures.

(* ===================================================================== *)
(** ** utils/cache.ts: clearing *)
(* ===================================================================== *)

Module CacheClear.
Import JsString Eff Json Cache.

(** [xs.forEach(f)] for an [f] that may throw. *)
Fixpoint forEach {W A : Type} (xs : list A) (f : A → M W unit) : M W unit :=
  match xs with
  | [] => ret tt
  | x :: r => do _ <- f x; forEach r f
  end.

(** [fs.unlinkSync(path)]; [fails] tells whether the file system refuses. *)
Definition unlinkSync (fails : bool) (path : string) : M World unit :=
  λ w, if fails
       then (Throw "EACCES: permission denied, unlink", w)
       else match files w !! path with
            | Some _ => (Ok tt, setFiles (delete path) w)
            | None => (Throw "ENOENT: no such file or directory, unlink", w)
            end.

(** [fs.readdirSync(CACHE_DIR)] joined with [CACHE_DIR]: the paths of the
    files of the cache directory. *)
Definition readdirSync (fails : bool) : M World (list string) :=
  λ w, if fails
       then (Throw "EACCES: permission denied, scandir", w)
       else (Ok (map_to_list (files w)).*1, w).

Section WithHome.
Variable homedir : string.

Definition clearCache (unlinkFails : bool) (key : string) (config : CacheConfig)
    : M World unit :=
  do _ <- modify (setMemory (delete key));
  match storage config with
  | file =>
      tryCatch
        (let filePath := getCacheFilePath homedir key in
         do present <- existsSync filePath;
         if present then unlinkSync unlinkFails filePath else ret tt)
        (λ error,
           consoleError ("Error clearing cache file for key " +:+ key +:+ ": "
                         +:+ error))
  | memory => ret tt
  end.

Definition clearAllCache (readdirFails : bool) (unlinkFails : string → bool)
    (config : CacheConfig) : M World unit :=
  do _ <- modify (setMemory (λ _, ∅));
  match storage config with
  | file =>
      tryCatch
        (do _ <- ensureCacheDir;
         do files <- readdirSync readdirFails;
         forEach files (λ filePath, unlinkSync (unlinkFails filePath) filePath))
        (λ error, consoleError ("Error clearing all cache files: " +:+ error))
  | memory => ret tt
  end.

End WithHome.

End CacheClear.

(* ===================================================================== *)
(** ** The extractor, position by position *)
(* ===================================================================== *)

Module ExtractorSpec.
Import JsString Fetcher.

(** The example made of the code block at index [i] of the page. *)
Definition exampleAt (i : nat) (b : CodeBlock) : MantineComponentExample :=
  {| title := if truthy (trim (prevHeading b)) then trim (prevHeading b)
              else "Example " +:+ numberToString (i + 1);
     code := trim (codeText b);
     exampleDescription := orUndefined (trim (prevParagraph b)) |}.

Definition twoBlocks : list CodeBlock :=
  [ {| prevHeading := "Usage"; codeText := "a"; prevParagraph := "" |};
    {| prevHeading := " "; codeText := "b"; prevParagraph := "" |} ].

End ExtractorSpec.

(* ===================================================================== *)
(** ** documentation/fetcher.ts: the catalog and the search *)
(* ===================================================================== *)

Module Lister.
Import JsString Eff.

(** How the puppeteer calls of [listAllComponents] end, and the [href] of
    every [a[href^="/core/"]] of the page they render. *)
Record Navigation : Type := {
  launchFails : bool;
  newPageFails : bool;
  gotoFails : bool;
  evaluateFails : bool;
  closeFails : bool;
  navLinks : list (option string);
}.

Record World : Type := {
  navigation : Navigation;
  openBrowsers : nat;
  console : list string;
}.

Definition setOpenBrowsers (f : nat → nat) (w : World) : World :=
  {| navigation := navigation w; openBrowsers := f (openBrowsers w);
     console := console w |}.

Definition addConsole (line : string) (w : World) : World :=
  {| navigation := navigation w; openBrowsers := openBrowsers w;
     console := console w ++ [line] |}.

Definition failing (flag : Navigation → bool) (err : string) : M World unit :=
  λ w, if flag (navigation w) then (Throw err, w) else (Ok tt, w).

Definition launch : M World unit :=
  do _ <- failing launchFails "Failed to launch the browser process";
  modify (setOpenBrowsers S).

Definition newPage : M World unit :=
  failing newPageFails "Protocol error (Target.createTarget)".

Definition goto (url : string) : M World unit :=
  failing gotoFails ("net::ERR_CONNECTION_REFUSED at " +:+ url).

(** The callback mapped over the links inside [page.evaluate]; [None] is
    its [null]. *)
Definition linkName (href : option string) : option string :=
  match href with
  | Some href =>
      if truthy href then
        match last (split "/" href) with
        | Some componentName =>
            if truthy componentName then Some (capitalize componentName)
            else None
        | None => None
        end
      else None
  | None => None
  end.

(** [page.evaluate(...)]: the mapped links, [filter(Boolean)] applied. *)
Definition evaluate : M World (list string) :=
  do _ <- failing evaluateFails "Execution context was destroyed";
  gets (λ w, omap linkName (navLinks (navigation w))).

(** [browser.close()]; when it rejects the browser stays open. *)
Definition close : M World unit :=
  do _ <- failing closeFails "Protocol error (Browser.close): Target closed";
  modify (setOpenBrowsers pred).

Definition FALLBACK : list string :=
  [ "Accordion"; "ActionIcon"; "Affix"; "Alert"; "Anchor"; "AppShell";
    "AspectRatio"; "Autocomplete"; "Avatar"; "Badge"; "Blockquote"; "Box";
    "Breadcrumbs"; "Burger"; "Button"; "Card"; "Carousel"; "Center";
    "Checkbox"; "Chip"; "Code"; "Collapse"; "ColorInput"; "ColorPicker";
    "Container"; "DateInput"; "DatePicker"; "DatePickerInput";
    "DateTimePicker"; "Divider"; "Drawer"; "Dropzone"; "FileInput"; "Flex";
    "FloatingActionButton"; "FocusTrap"; "Grid"; "Group"; "Highlight";
    "Image"; "Indicator"; "Input"; "Indicator"; "JsonInput"; "Kbd"; "List";
    "Loader"; "Mark"; "Menu"; "Modal"; "MultiSelect"; "Navbar";
    "NativeSelect"; "Notification"; "NumberInput"; "Overlay"; "Pagination";
    "Paper"; "PasswordInput"; "Pill"; "PinInput"; "Popover"; "Portal";
    "Progress"; "Radio"; "RangeCalendar"; "RangeSlider"; "Rating";
    "RingProgress"; "ScrollArea"; "SegmentedControl"; "Select";
    "SimpleGrid"; "Skeleton"; "Slider"; "Space"; "Spoiler"; "Stack";
    "Stepper"; "Switch"; "Table"; "Tabs"; "Text"; "Textarea"; "TextInput";
    "ThemeIcon"; "Timeline"; "Title"; "Tooltip"; "UnstyledButton" ].

Definition listAllComponents : M World (list string) :=
  tryCatch
    (do _ <- launch;
     do _ <- newPage;
     do _ <- goto (Fetcher.MANTINE_DOCS_BASE_URL +:+ "/core/button");
     do componentNames <- evaluate;
     do _ <- close;
     ret componentNames)
    (λ error,
       do _ <- modify (addConsole ("Error listing all components: " +:+ error));
       ret FALLBACK).

End Lister.

Module Search.
Import JsString Eff Json.

(** [obj[name]] on the properties of an object, whose names are distinct. *)
Fixpoint lookupProp (name : string) (props : list (string * JsValue)) : JsValue :=
  match props with
  | [] => JUndefined
  | (k, v) :: r => if decide (k = name) then v else lookupProp name r
  end.

(** [v.name] for a [name] that no built-in prototype defines: a
    [TypeError] on [null] and [undefined], the property of an object,
    [undefined] on any other value. *)
Definition getProp {W} (name : string) (v : JsValue) : M W JsValue :=
  match v with
  | JUndefined =>
      throw ("TypeError: Cannot read properties of undefined (reading '"
             +:+ name +:+ "')")
  | JNull =>
      throw ("TypeError: Cannot read properties of null (reading '"
             +:+ name +:+ "')")
  | JObj props => ret (lookupProp name props)
  | _ => ret JUndefined
  end.

(** The truthiness of a value. *)
Definition truthyValue (v : JsValue) : bool :=
  match v with
  | JUndefined | JNull => false
  | JBool b => b
  | JNum n => negb (bool_decide (n = 0))
  | JStr s => truthy s
  | _ => true
  end.

(** How [axios.get] ends: an exception (no connection, a status outside
    2xx) or a response with its [data]. *)
Inductive HttpOutcome : Type :=
| NetworkError (message : string)
| Response (data : JsValue).

(** The world of a search is the console. *)
Definition axiosGet (outcome : HttpOutcome) : M (list string) JsValue :=
  match outcome with
  | NetworkError message => throw message
  | Response data => ret data
  end.

(** [v === s] for a string [s]. *)
Definition strictEqualsString (v : JsValue) (s : string) : bool :=
  match v with
  | JStr s' => bool_decide (s' = s)
  | _ => false
  end.

(** [xs.filter(result => result.type === 'component')] *)
Fixpoint filterComponents {W} (results : list JsValue) : M W (list JsValue) :=
  match results with
  | [] => ret []
  | result :: r =>
      do t <- getProp "type" result;
      do rest <- filterComponents r;
      ret (if strictEqualsString t "component" then result :: rest else rest)
  end.

(** [xs.map(result => result.title)] *)
Fixpoint mapTitles {W} (results : list JsValue) : M W (list JsValue) :=
  match results with
  | [] => ret []
  | result :: r =>
      do t <- getProp "title" result;
      do rest <- mapTitles r;
      ret (t :: rest)
  end.

Definition searchComponents (query : string) (outcome : HttpOutcome)
    : M (list string) (list JsValue) :=
  tryCatch
    (do data <- axiosGet outcome;
     if truthyValue data then
       do results <- getProp "results" data;
       match results with
       | JArr results =>
           do components <- filterComponents results;
           mapTitles components
       | _ => ret []
       end
     else ret [])
    (λ error,
       do _ <- modify (λ console,
                 console ++ ["Error searching for components with query "
                             +:+ String "034" (query +:+ String "034" (": " +:+ error))]);
       ret []).

(** The title of a result of kind component, if it is one. *)
Definition componentTitle (result : JsValue) : option JsValue :=
  match result with
  | JObj props =>
      if strictEqualsString (lookupProp "type" props) "component"
      then Some (lookupProp "title" props)
      else None
  | _ => None
  end.

(** Neither [null] nor [undefined]. *)
Definition notNullish (v : JsValue) : Prop := v ≠ JNull ∧ v ≠ JUndefined.

End Search.

(* ===================================================================== *)
(** ** documentation/fetcher.ts: getComponentDocumentation *)
(* ===================================================================== *)

Module Service.
Import JsString Eff Json.

(** The fields of [ServerConfig] that the documentation service reads:
    [mantineVersion] and [caching?.documentation]. *)
Record ServerConfig : Type := {
  mantineVersion : option string;
  cachingDocumentation : option Cache.CacheConfig;
}.

(** The cache, the rendering session and the configuration of the
    process. *)
Record World : Type := {
  cacheWorld : Cache.World;
  webWorld : Fetcher.World;
  config : ServerConfig;
}.

Definition withCache (c : Cache.World) (w : World) : World :=
  {| cacheWorld := c; webWorld := webWorld w; config := config w |}.

Definition withWeb (web : Fetcher.World) (w : World) : World :=
  {| cacheWorld := cacheWorld w; webWorld := web; config := config w |}.

Definition liftCache {A} (m : M Cache.World A) : M World A :=
  λ w, let '(r, c) := m (cacheWorld w) in (r, withCache c w).

Definition liftWeb {A} (m : M Fetcher.World A) : M World A :=
  λ w, let '(r, b) := m (webWorld w) in (r, withWeb b w).

(** [config.mantineVersion || '7.16.2'] *)
Definition versionOrDefault (c : ServerConfig) : string :=
  match mantineVersion c with
  | Some v => if truthy v then v else "7.16.2"
  | None => "7.16.2"
  end.

(** The text of [config.mantineVersion] inside a template literal. *)
Definition versionText (c : ServerConfig) : string :=
  match mantineVersion c with
  | Some v => v
  | None => "undefined"
  end.

Definition cacheKey (componentName : string) (c : ServerConfig) : string :=
  "component_doc_" +:+ componentName +:+ "_" +:+ versionText c.

Definition propValue (p : Fetcher.MantineComponentProp) : JsValue :=
  JObj [ ("name", JStr (Fetcher.name p));
         ("type", JStr (Fetcher.type p));
         ("defaultValue", from_option JStr JUndefined (Fetcher.defaultValue p));
         ("description", JStr (Fetcher.description p));
         ("required", JBool (Fetcher.required p)) ].

Definition exampleValue (e : Fetcher.MantineComponentExample) : JsValue :=
  JObj [ ("title", JStr (Fetcher.title e));
         ("code", JStr (Fetcher.code e));
         ("description",
          from_option JStr JUndefined (Fetcher.exampleDescription e)) ].

(** The record returned by [fetchComponentDocFromWebsite] as a value, with
    the [version] and the [lastFetchedAt] it stamps (the import statement
    and the package name are left out, as in [MantineComponentDoc]). *)
Definition docValue (version : string) (fetchedAt : Z)
    (doc : Fetcher.MantineComponentDoc) : JsValue :=
  JObj [ ("name", JStr (Fetcher.docName doc));
         ("description", JStr (Fetcher.docDescription doc));
         ("props", JArr (propValue <$> Fetcher.props doc));
         ("examples", JArr (exampleValue <$> Fetcher.examples doc));
         ("version", JStr version);
         ("url", JStr (Fetcher.url doc));
         ("relatedComponents", JArr (JStr <$> Fetcher.relatedComponents doc));
         ("lastFetchedAt", JDate fetchedAt) ].

Section WithHome.
Variable homedir : string.

(** The first block of [getComponentDocumentation]: the cached record when
    the block returns it, [None] when control goes on to the fetch. *)
Definition consultCache (now : Z) (componentName : string) (forceRefresh : bool)
    : M World (option JsValue) :=
  do config <- gets config;
  match cachingDocumentation config with
  | Some caching =>
      if negb forceRefresh then
        do cachedDoc <- liftCache
                          (Cache.getCache homedir now
                             (cacheKey componentName config) caching
                             (versionOrDefault config));
        match cachedDoc with
        | Some doc => if Search.truthyValue doc then ret (Some doc) else ret None
        | None => ret None
        end
      else ret None
  | None => ret None
  end.

(** [now] is the clock at the lookup, [fetchedAt] at the end of the
    extraction and [storedAt] at the write. *)
Definition getComponentDocumentation (now fetchedAt storedAt : Z)
    (componentName : string) (forceRefresh : bool) : M World JsValue :=
  do cached <- consultCache now componentName forceRefresh;
  match cached with
  | Some cachedDoc => ret cachedDoc
  | None =>
      do config <- gets config;
      do fetched <- liftWeb (Fetcher.fetchComponentDocFromWebsite componentName);
      let componentDoc := docValue (versionOrDefault config) fetchedAt fetched in
      do _ <- match cachingDocumentation config with
              | Some caching =>
                  liftCache
                    (Cache.setCache homedir storedAt
                       (cacheKey componentName config) componentDoc caching
                       (versionOrDefault config))
              | None => ret tt
              end;
      ret componentDoc
  end.

End WithHome.

End Service.

Module MoreFixtures.
Import Json.

(** A process with the default configuration, nothing cached, and the
    page of Button on line. *)
Definition serviceStart : Service.World :=
  {| Service.cacheWorld := Fixtures.freshWorld;
     Service.webWorld :=
       PageFixtures.start (PageFixtures.online PageFixtures.buttonPage);
     Service.config :=
       {| Service.mantineVersion := Some "7.16.2";
          Service.cachingDocumentation := Some Fixtures.defaultCaching |} |}.


(** A process started with [CACHE_DOCS=false], the site out of reach, and
    a record for Button left in the in-process store. *)
Definition serviceDisabledOffline : Service.World :=
  {| Service.cacheWorld :=
       Cache.setMemory
         <["component_doc_button_7.16.2" :=
             {| Cache.data := Fixtures.plainDoc;
                Cache.timestamp := 1700000000000;
                Cache.version := "7.16.2" |}]> Fixtures.freshWorld;
     Service.webWorld := PageFixtures.start PageFixtures.offline;
     Service.config :=
       {| Service.mantineVersion := Some "7.16.2";
          Service.cachingDocumentation := Some Fixtures.disabledCaching |} |}.

(** The same process with the site out of reach. *)
Definition serviceOffline : Service.World :=
  {| Service.cacheWorld := Fixtures.freshWorld;
     Service.webWorld := PageFixtures.start PageFixtures.offline;
     Service.config :=
       {| Service.mantineVersion := Some "7.16.2";
          Service.cachingDocumentation := Some Fixtures.defaultCaching |} |}.

(** A navigation with a repeated link and a link ending with a slash. *)
Definition navOnline : Lister.World :=
  {| Lister.navigation :=
       {| Lister.launchFails := false; Lister.newPageFails := false;
          Lister.gotoFails := false; Lister.evaluateFails := false;
          Lister.closeFails := false;
          Lister.navLinks := [Some "/core/action-icon"; Some "/core/button/";
                              Some "/core/action-icon"; Some "/core/text"] |};
     Lister.openBrowsers := 0; Lister.console := [] |}.

(** The site cannot be reached. *)
Definition navOffline : Lister.World :=
  {| Lister.navigation :=
       {| Lister.launchFails := false; Lister.newPageFails := false;
          Lister.gotoFails := true; Lister.evaluateFails := false;
          Lister.closeFails := false;
          Lister.navLinks := [] |};
     Lister.openBrowsers := 0; Lister.console := [] |}.

(** The results of a search: a component, a hook, a number, a component. *)
Definition searchItems : list JsValue :=
  [ JObj [("type", JStr "component"); ("title", JStr "Button")];
    JObj [("type", JStr "hook"); ("title", JStr "use-click-outside")];
    JNum 7;
    JObj [("title", JStr "ActionIcon"); ("type", JStr "component")] ].

End MoreFixtures.

(* ===================================================================== *)
(** ** Facts about the string primitives *)
(* ===================================================================== *)

Module JsStringFacts.
Import JsString.

Lemma str_app_cons (c : ascii) (a b : string) :
  String c a +:+ b = String c (a +:+ b).
Proof. reflexivity. Qed.

Lemma str_app_nil (b : string) : "" +:+ b = b.
Proof. reflexivity. Qed.

Lemma str_app_assoc (a b c : string) : (a +:+ b) +:+ c = a +:+ (b +:+ c).
Proof.
  induction a as [|x a IH]; [done|]. by rewrite !str_app_cons, IH.
Qed.

Lemma str_length_app (a b : string) :
  String.length (a +:+ b) = (String.length a + String.length b)%nat.
Proof.
  induction a as [|x a IH]; [done|]. rewrite str_app_cons. cbn. by rewrite IH.
Qed.

(** Appending the same suffix is injective. *)
Lemma app_inj_suffix (a b t : string) : a +:+ t = b +:+ t → a = b.
Proof.
  revert b. induction a as [|x a IH]; intros [|y b] H;
    rewrite ?str_app_cons, ?str_app_nil in H.
  - done.
  - apply (f_equal String.length) in H. cbn in H.
    rewrite str_length_app in H. lia.
  - apply (f_equal String.length) in H. cbn in H.
    rewrite str_length_app in H. lia.
  - injection H as -> H. f_equal. by apply IH.
Qed.

Lemma underscore_not_alnum : isAlnum "_" = false.
Proof. reflexivity. Qed.

(** The transform sends two characters to the same one exactly when they
    are equal or both replaced. *)
Lemma sanitize_char_eq (a b : ascii) :
  (if isAlnum a then a else "_"%char) = (if isAlnum b then b else "_"%char)
  ↔ a = b ∨ (isAlnum a = false ∧ isAlnum b = false).
Proof.
  destruct (isAlnum a) eqn:Ha, (isAlnum b) eqn:Hb; split.
  - intros ->. by left.
  - intros [->|[? _]]; done.
  - intros ->. by rewrite underscore_not_alnum in Ha.
  - intros [->|[? _]]; [congruence | done].
  - intros <-. by rewrite underscore_not_alnum in Hb.
  - intros [->|[_ ?]]; [congruence | done].
  - intros _. by right.
  - done.
Qed.

Lemma sanitize_eq_confusable (k1 k2 : string) :
  sanitize k1 = sanitize k2 ↔ Spec.confusable k1 k2.
Proof.
  revert k2. induction k1 as [|a r1 IH]; intros [|b r2]; cbn.
  - done.
  - split; [discriminate | done].
  - split; [discriminate | done].
  - rewrite <- IH, <- sanitize_char_eq. fold (sanitize r1) (sanitize r2).
    split.
    + intros H. injection H as H1 H2. done.
    + intros [-> ->]. done.
Qed.

Lemma sanitize_plain (k : string) : Spec.plain k → sanitize k = k.
Proof.
  induction k as [|c r IH]; cbn; [done|]. intros [Hc Hr].
  fold (sanitize r). rewrite (IH Hr). destruct Hc as [-> | ->]; done.
Qed.

(** *** Suffixes and path segments *)

Lemma endsWith_unfold (p s : string) :
  endsWith p s
  = if decide (s = p) then true
    else match s with
         | EmptyString => false
         | String _ r => endsWith p r
         end.
Proof. by destruct s. Qed.

Lemma endsWith_app (p pre : string) : endsWith p (pre +:+ p) = true.
Proof.
  induction pre as [|c pre IH]; rewrite endsWith_unfold.
  - rewrite str_app_nil. by rewrite decide_True.
  - rewrite str_app_cons. case_decide; [done|]. exact IH.
Qed.

(** The last piece of a split is a suffix of the string, and the whole
    string when there is a single piece. *)
Lemma split_last (sep : ascii) (s : string) :
  ∃ h t, split sep s = h :: t
         ∧ ∀ seg, last (h :: t) = Some seg →
                  ∃ pre, s = pre +:+ seg ∧ (t = [] → pre = "").
Proof.
  induction s as [|c r (h & t & Hsplit & IH)]; cbn.
  - exists "", []. split; [done|]. intros seg [= <-]. by exists "".
  - case_decide as Hc.
    + exists "", (split sep r). split; [done|]. rewrite Hsplit.
      intros seg Hlast. rewrite last_cons in Hlast.
      destruct (last (h :: t)) as [y|] eqn:Hy;
        [|by apply last_None in Hy].
      injection Hlast as ->. destruct (IH seg eq_refl) as (pre & -> & _).
      exists (String c pre). by rewrite str_app_cons.
    + rewrite Hsplit. exists (String c h), t. split; [done|].
      intros seg Hlast. destruct t as [|h' t'].
      * injection Hlast as <-.
        destruct (IH h eq_refl) as (pre & -> & Hpre).
        rewrite (Hpre eq_refl), str_app_nil. by exists "".
      * change (last (h :: h' :: t') = Some seg) in Hlast.
        destruct (IH seg Hlast) as (pre & -> & _).
        exists (String c pre). by rewrite str_app_cons.
Qed.

Lemma split_last_suffix (sep : ascii) (s seg : string) :
  last (split sep s) = Some seg → endsWith seg s = true.
Proof.
  destruct (split_last sep s) as (h & t & -> & H). intros Hlast.
  destruct (H seg Hlast) as (pre & -> & _). apply endsWith_app.
Qed.

(** *** Letter case *)

Lemma toLowerChar_toUpperChar (c : ascii) :
  toLowerChar c = c → toLowerChar (toUpperChar c) = c.
Proof.
  destruct c as [[] [] [] [] [] [] [] []]; vm_compute; intros H;
    first [reflexivity | discriminate H].
Qed.

Lemma toLowerCase_capitalize (s : string) :
  toLowerCase s = s → toLowerCase (capitalize s) = s.
Proof.
  destruct s as [|c r]; [done|]. cbn. intros H. injection H as Hc Hr.
  fold (toLowerCase r) in Hr |- *. by rewrite toLowerChar_toUpperChar, Hr.
Qed.

Lemma includes_spec (c : ascii) (s : string) :
  includes c s = true ↔ ∃ a b, s = a +:+ String c b.
Proof.
  induction s as [|x r IH]; cbn.
  - split; [done|]. intros ([|??] & b & H); discriminate H.
  - case_decide as Hx.
    + subst x. split; [|done]. intros _. by exists "", r.
    + rewrite IH. split.
      * intros (a & b & ->). by exists (String x a), b.
      * intros ([|y a] & b & H); rewrite ?str_app_nil, ?str_app_cons in H;
          injection H as -> ->; [done | by exists a, b].
Qed.

(** *** The text after the last separator *)

Lemma split_no_sep (sep : ascii) (s : string) :
  includes sep s = false → split sep s = [s].
Proof.
  induction s as [|c r IH]; cbn; [done|].
  case_decide as Hc; [done|]. intros Hr. by rewrite (IH Hr).
Qed.

Lemma split_app_sep (sep : ascii) (pre seg : string) :
  ∃ h t, split sep (pre +:+ String sep seg) = (h :: t) ++ split sep seg.
Proof.
  induction pre as [|c pre (h & t & IH)].
  - rewrite str_app_nil. cbn. rewrite decide_True by done. by exists "", [].
  - rewrite str_app_cons. cbn. rewrite IH. case_decide.
    + by exists "", (h :: t).
    + by exists (String c h), t.
Qed.

(** In [pre/seg] with no separator inside [seg], the last piece is
    [seg]. *)
Lemma last_split_app (sep : ascii) (pre seg : string) :
  includes sep seg = false →
  last (split sep (pre +:+ String sep seg)) = Some seg.
Proof.
  intros Hseg. destruct (split_app_sep sep pre seg) as (h & t & ->).
  rewrite (split_no_sep _ _ Hseg). apply last_snoc.
Qed.

End JsStringFacts.

(* ===================================================================== *)
(** ** Facts about the JSON image *)
(* ===================================================================== *)

Module JsonFacts.
Import Json.


Example toISOString_epoch : toISOString 0 = "1970-01-01T00:00:00.000Z".
Proof. reflexivity. Qed.

Example toISOString_leap_day :
  toISOString 951782400000 = "2000-02-29T00:00:00.000Z".
Proof. reflexivity. Qed.

Example toISOString_before_epoch :
  toISOString (-1) = "1969-12-31T23:59:59.999Z".
Proof. reflexivity. Qed.

Example jsonRoundtrip_lossy :
  jsonRoundtrip (JObj [("a", JUndefined); ("b", JArr [JUndefined; JDate 0; JNum 3])])
  = JObj [("b", JArr [JNull; JStr "1970-01-01T00:00:00.000Z"; JNum 3])].
Proof. reflexivity. Qed.


End JsonFacts.

(* ===================================================================== *)
(** ** Properties of the cache *)
(* ===================================================================== *)

Module CacheFacts.
Import JsString Eff Json Cache JsStringFacts.

Lemma getCacheFilePath_eq (homedir k1 k2 : string) :
  getCacheFilePath homedir k1 = getCacheFilePath homedir k2
  ↔ sanitize k1 = sanitize k2.
Proof.
  unfold getCacheFilePath. split.
  - intros H. do 2 apply String.app_inj in H. by apply app_inj_suffix in H.
  - by intros ->.
Qed.

(** C4, as stated, fails: the keys [a/b] and [a_b] are distinct and are
    stored in the same file. *)
Lemma getCacheFilePath_not_injective :
  ¬ (∀ homedir k1 k2 : string,
       k1 ≠ k2 → getCacheFilePath homedir k1 ≠ getCacheFilePath homedir k2).
Proof.
  intros H. by apply (H "/home/dev" "a/b" "a_b").
Qed.

(** C4, amended: the path is a function of the key; two keys share a path
    exactly when they have the same length and differ only at positions
    where both have a character outside [A-Za-z0-9]; so keys written with
    [A-Za-z0-9_] alone never collide. *)
Theorem getCacheFilePath_collisions (homedir k1 k2 : string) :
  (getCacheFilePath homedir k1 = getCacheFilePath homedir k2
   ↔ Spec.confusable k1 k2)
  ∧ (Spec.plain k1 → Spec.plain k2 → k1 ≠ k2 →
     getCacheFilePath homedir k1 ≠ getCacheFilePath homedir k2).
Proof.
  split.
  - by rewrite getCacheFilePath_eq, sanitize_eq_confusable.
  - intros H1 H2 Hne Heq. apply getCacheFilePath_eq in Heq.
    rewrite !sanitize_plain in Heq; done.
Qed.

Lemma getCacheFilePath_collisions_witness :
  Spec.plain "component_doc_Button_7" ∧ Spec.plain "component_doc_Badge_7" ∧
  getCacheFilePath "/home/dev" "component_doc_Button_7"
  ≠ getCacheFilePath "/home/dev" "component_doc_Badge_7".
Proof.
  assert (H1 : Spec.plain "component_doc_Button_7") by (cbn; tauto).
  assert (H2 : Spec.plain "component_doc_Badge_7") by (cbn; tauto).
  split; [exact H1|]. split; [exact H2|].
  apply (proj2 (getCacheFilePath_collisions "/home/dev"
                  "component_doc_Button_7" "component_doc_Badge_7") H1 H2).
  discriminate.
Defined.

(** *** Validity *)

Lemma isValidCacheEntry_spec now e ttl ver :
  isValidCacheEntry now e ttl ver = true ↔ Spec.valid now e ttl ver.
Proof.
  unfold isValidCacheEntry, Spec.valid.
  repeat case_bool_decide; cbn; intuition (try done; try lia).
Qed.

Lemma isValidCacheEntry_false now e ttl ver :
  isValidCacheEntry now e ttl ver = false ↔ ¬ Spec.valid now e ttl ver.
Proof.
  rewrite <- isValidCacheEntry_spec. by destruct (isValidCacheEntry _ _ _ _).
Qed.

(** *** Running the operations *)

Ltac run :=
  unfold getCache, getCacheFromFile, setCache, ensureCacheDir, existsSyncDir,
    existsSync, readFileSync, writeFileSync, mkdirSync, parse, consoleError,
    tryCatch, bind, ret, throw, gets, modify in *;
  repeat (cbn in *; unfold setMemory, setDirExists, setFiles, addConsole in * ).

(** Split on the outcome of every call that the goal is waiting for. *)
Ltac fs_cases :=
  repeat (cbn in *; simplify_eq; try case_match); try done.

(** The file tier of a lookup either promotes the valid entry of a
    readable file, or misses and leaves both stores as they were. *)
Lemma getCacheFromFile_cases homedir now key cfg ver w :
  (∃ e, storage cfg = file ∧ Spec.onDisk homedir w key e
        ∧ isValidCacheEntry now e (ttl cfg) ver = true
        ∧ getCacheFromFile homedir now key cfg ver w
          = (Ok (Some (data e)), setMemory <[key := e]> w))
  ∨ ((∀ e, storage cfg = file → Spec.onDisk homedir w key e →
           isValidCacheEntry now e (ttl cfg) ver = false)
     ∧ ∃ w', getCacheFromFile homedir now key cfg ver w = (Ok None, w')
             ∧ memoryCache w' = memoryCache w ∧ files w' = files w).
Proof.
  unfold Spec.onDisk. run. destruct (storage cfg) eqn:Hst.
  { right. split; [done|]. by exists w. }
  destruct (files w !! getCacheFilePath homedir key) as [c|] eqn:Hf; cbn.
  2:{ right. split; [intros e _ [_ ?]; done|]. by exists w. }
  destruct (readFails (faults w)) eqn:Hr; cbn.
  { right. split; [intros e _ [? _]; done|]. eexists; split; [done|]. done. }
  rewrite Hf. destruct c as [e|t]; cbn.
  2:{ right. split; [intros e _ [_ ?]; done|]. eexists; split; [done|]. done. }
  destruct (isValidCacheEntry now e (ttl cfg) ver) eqn:Hv; cbn.
  - left. exists e. done.
  - right. split; [|by exists w]. intros e' _ [_ He']. by simplify_eq.
Qed.

(** A lookup always returns: no exception escapes [getCache]. *)
Lemma getCache_total homedir now key cfg ver w :
  ∃ r w', getCache homedir now key cfg ver w = (Ok r, w').
Proof.
  unfold getCache, bind, gets, ret. cbn.
  destruct (getCacheFromFile_cases homedir now key cfg ver w)
    as [(e & _ & _ & _ & He) | (_ & w' & He & _)];
    destruct (memoryCache w !! key) as [m|];
    try destruct (isValidCacheEntry now m (ttl cfg) ver);
    rewrite ?He; eauto.
Qed.

(** The hits of a lookup: the valid entry of the in-process store, or
    else, with file storage, the valid entry of the key's file. *)
Lemma getCache_hit homedir now key cfg ver w d :
  (getCache homedir now key cfg ver w).1 = Ok (Some d) ↔
    (∃ e, memoryCache w !! key = Some e ∧ Spec.valid now e (ttl cfg) ver
          ∧ data e = d)
    ∨ ((∀ e, memoryCache w !! key = Some e → ¬ Spec.valid now e (ttl cfg) ver)
       ∧ storage cfg = file
       ∧ ∃ e, Spec.onDisk homedir w key e ∧ Spec.valid now e (ttl cfg) ver
              ∧ data e = d).
Proof.
  assert (Hfile :
    (getCacheFromFile homedir now key cfg ver w).1 = Ok (Some d) ↔
    storage cfg = file
    ∧ ∃ e, Spec.onDisk homedir w key e ∧ Spec.valid now e (ttl cfg) ver
           ∧ data e = d).
  { destruct (getCacheFromFile_cases homedir now key cfg ver w)
      as [(e & Hst & Hd & Hv & ->) | (Hno & w' & -> & _)]; cbn.
    - split.
      + intros [= <-]. split; [done|]. exists e.
        by rewrite <- isValidCacheEntry_spec.
      + intros (_ & e' & [_ Hd'] & _ & <-). destruct Hd as [_ Hd].
        by simplify_eq.
    - split; [done|]. intros (Hst & e & Hd & Hv & _).
      apply isValidCacheEntry_spec in Hv. by rewrite (Hno e Hst Hd) in Hv. }
  unfold getCache, bind, gets, ret. cbn.
  destruct (memoryCache w !! key) as [m|] eqn:Hm.
  - destruct (isValidCacheEntry now m (ttl cfg) ver) eqn:Hv; cbn.
    + apply isValidCacheEntry_spec in Hv. split.
      * intros [= <-]. left. by exists m.
      * intros [(e & [= <-] & _ & <-) | (Hno & _)]; [done|].
        by destruct (Hno m).
    + apply isValidCacheEntry_false in Hv. rewrite Hfile. split.
      * intros [Hst He]. right. split; [|done]. by intros e [= <-].
      * intros [(e & [= <-] & ? & _) | (_ & ? & ?)]; done.
  - rewrite Hfile. split.
    + intros [Hst He]. right. done.
    + intros [(e & ? & _) | (_ & ? & ?)]; done.
Qed.

Lemma getCache_miss_or_hit homedir now key cfg ver w :
  (getCache homedir now key cfg ver w).1 = Ok None
  ∨ ∃ d, (getCache homedir now key cfg ver w).1 = Ok (Some d).
Proof.
  destruct (getCache_total homedir now key cfg ver w) as ([d|] & w' & ->);
    cbn; eauto.
Qed.

(** A lookup that finds no valid entry in the tiers it consults misses. *)
Lemma getCache_no_valid_miss homedir now key cfg ver w :
  (∀ e, memoryCache w !! key = Some e ∨ Spec.onDisk homedir w key e →
        ¬ Spec.valid now e (ttl cfg) ver) →
  (getCache homedir now key cfg ver w).1 = Ok None.
Proof.
  intros Hno.
  destruct (getCache_miss_or_hit homedir now key cfg ver w) as [|[d Hd]];
    [done|].
  apply getCache_hit in Hd as [(e & ? & ? & _) | (_ & _ & e & ? & ? & _)];
    destruct (Hno e); auto.
Qed.

(** C1: a lookup returns the data of a stored entry, from the in-process
    store or else from the key's file, exactly when [ttl ≠ 0], the entry's
    version is the current one and [now - timestamp < ttl]; a [ttl] of 0,
    a version mismatch, and an age of [ttl] or more are misses. *)
Theorem getCache_returns_iff_valid homedir now key cfg ver w :
  let r := (getCache homedir now key cfg ver w).1 in
  (∀ d, r = Ok (Some d) ↔
      (∃ e, memoryCache w !! key = Some e
            ∧ (ttl cfg ≠ 0 ∧ version e = ver ∧ now - timestamp e < ttl cfg)
            ∧ data e = d)
      ∨ ((∀ e, memoryCache w !! key = Some e →
               ¬ (ttl cfg ≠ 0 ∧ version e = ver ∧ now - timestamp e < ttl cfg))
         ∧ storage cfg = file
         ∧ ∃ e, Spec.onDisk homedir w key e
                ∧ (ttl cfg ≠ 0 ∧ version e = ver ∧ now - timestamp e < ttl cfg)
                ∧ data e = d))
  ∧ (r = Ok None ∨ ∃ d, r = Ok (Some d))
  ∧ (ttl cfg = 0 → r = Ok None)
  ∧ ((∀ e, memoryCache w !! key = Some e ∨ Spec.onDisk homedir w key e →
           version e ≠ ver) → r = Ok None)
  ∧ ((∀ e, memoryCache w !! key = Some e ∨ Spec.onDisk homedir w key e →
           ttl cfg ≤ now - timestamp e) → r = Ok None).
Proof.
  cbn. split; [|split; [|split; [|split]]].
  - intros d. apply getCache_hit.
  - apply getCache_miss_or_hit.
  - intros H0. apply getCache_no_valid_miss. intros e _ (? & _). done.
  - intros Hver. apply getCache_no_valid_miss.
    intros e He (_ & ? & _). by apply (Hver e He).
  - intros Hage. apply getCache_no_valid_miss.
    intros e He (_ & _ & ?). specialize (Hage e He). lia.
Qed.

Lemma getCache_returns_iff_valid_witness :
  (getCache Fixtures.home 1700000000000 Fixtures.buttonKey
     Fixtures.disabledCaching "7.16.2"
     (setMemory
        <[Fixtures.buttonKey :=
            {| data := Fixtures.plainDoc; timestamp := 1700000000000;
               version := "7.16.2" |}]> Fixtures.freshWorld)).1
  = Ok None.
Proof.
  exact (proj1 (proj2 (proj2
           (getCache_returns_iff_valid Fixtures.home 1700000000000
              Fixtures.buttonKey Fixtures.disabledCaching "7.16.2" _)))
           eq_refl).
Defined.

(** *** Writing *)

Lemma setCache_memory homedir now key v cfg ver w :
  memoryCache (setCache homedir now key v cfg ver w).2
  = <[key := {| data := v; timestamp := now; version := ver |}]> (memoryCache w).
Proof.
  run. destruct (storage cfg); [done|]. fs_cases.
Qed.

Lemma setCache_faults homedir now key v cfg ver w :
  faults (setCache homedir now key v cfg ver w).2 = faults w.
Proof.
  run. destruct (storage cfg); [done|]. fs_cases.
Qed.

Lemma setCache_file_written homedir now key v cfg ver w :
  storage cfg = file →
  (setCache homedir now key v cfg ver w).1 = Ok tt →
  files (setCache homedir now key v cfg ver w).2
  = <[getCacheFilePath homedir key :=
        stringify {| data := v; timestamp := now; version := ver |}]> (files w).
Proof.
  run. intros ->. fs_cases.
Qed.



(** C2: a write followed by a lookup of the same key with the same
    version, under a positive [ttl] and before [ttl] has elapsed, returns
    the value written. *)
Theorem setCache_then_getCache homedir now now' key v cfg ver w :
  0 < ttl cfg →
  now' - now < ttl cfg →
  (getCache homedir now' key cfg ver
     (setCache homedir now key v cfg ver w).2).1 = Ok (Some v).
Proof.
  intros Hpos Hage. apply getCache_hit. left.
  exists {| data := v; timestamp := now; version := ver |}.
  rewrite setCache_memory, lookup_insert_eq. unfold Spec.valid. cbn.
  repeat split; [lia | done].
Qed.

Lemma setCache_then_getCache_witness :
  (getCache Fixtures.home 1700000000000 Fixtures.buttonKey
     Fixtures.defaultCaching "7.16.2"
     (setCache Fixtures.home 1700000000000 Fixtures.buttonKey
        Fixtures.buttonDoc Fixtures.defaultCaching "7.16.2"
        Fixtures.freshWorld).2).1
  = Ok (Some Fixtures.buttonDoc).
Proof.
  apply (setCache_then_getCache Fixtures.home 1700000000000 1700000000000
           Fixtures.buttonKey Fixtures.buttonDoc Fixtures.defaultCaching
           "7.16.2" Fixtures.freshWorld); cbn; lia.
Defined.

(** C3: when the file write fails, [setCache] throws to its caller and
    prints nothing; the entry stays in the in-process store. *)
Theorem setCache_write_failure_escapes :
  setCache Fixtures.home 1700000000000 Fixtures.buttonKey Fixtures.plainDoc
    Fixtures.defaultCaching "7.16.2" Fixtures.readOnlyWorld
  = (Throw "EACCES: permission denied, open",
     setMemory
       <[Fixtures.buttonKey :=
           {| data := Fixtures.plainDoc; timestamp := 1700000000000;
              version := "7.16.2" |}]>
       Fixtures.readOnlyWorld)
  ∧ console (setCache Fixtures.home 1700000000000 Fixtures.buttonKey
               Fixtures.plainDoc Fixtures.defaultCaching "7.16.2"
               Fixtures.readOnlyWorld).2 = [].
Proof. split; reflexivity. Qed.


(** *** Across a restart *)




(** What a lookup does when the in-process store has no entry for the
    key and the key's file holds a valid one. *)
Lemma getCache_promotes homedir now key cfg ver w e :
  memoryCache w !! key = None →
  storage cfg = file →
  Spec.onDisk homedir w key e →
  isValidCacheEntry now e (ttl cfg) ver = true →
  getCache homedir now key cfg ver w
  = (Ok (Some (data e)), setMemory <[key := e]> w).
Proof.
  intros Hm Hst [Hr Hf] Hv. unfold getCache, bind, gets. cbn. rewrite Hm.
  destruct (getCacheFromFile_cases homedir now key cfg ver w)
    as [(e' & _ & [_ Hf'] & _ & ->) | (Hno & _)].
  - by simplify_eq.
  - rewrite (Hno e Hst) in Hv; [done | by split].
Qed.




(** *** Damaged and missing files *)

Lemma getCacheFromFile_missing homedir now key cfg ver w :
  storage cfg = file →
  files w !! getCacheFilePath homedir key = None →
  getCacheFromFile homedir now key cfg ver w = (Ok None, w).
Proof. intros Hst Hf. run. rewrite Hst. cbn. by rewrite Hf. Qed.

Lemma getCacheFromFile_garbled homedir now key cfg ver w text :
  storage cfg = file →
  readFails (faults w) = false →
  files w !! getCacheFilePath homedir key = Some (Garbled text) →
  getCacheFromFile homedir now key cfg ver w
  = (Ok None,
     addConsole ("Error reading cache file for key " +:+ key +:+ ": "
                 +:+ "SyntaxError: Unexpected token in JSON") w).
Proof.
  intros Hst Hr Hf. run. rewrite Hst. cbn. rewrite Hf. cbn.
  rewrite Hr, Hf. done.
Qed.

Lemma getCacheFromFile_unreadable homedir now key cfg ver w c :
  storage cfg = file →
  readFails (faults w) = true →
  files w !! getCacheFilePath homedir key = Some c →
  getCacheFromFile homedir now key cfg ver w
  = (Ok None,
     addConsole ("Error reading cache file for key " +:+ key +:+ ": "
                 +:+ "EACCES: permission denied, open") w).
Proof.
  intros Hst Hr Hf. run. rewrite Hst. cbn. rewrite Hf. cbn.
  rewrite Hr. done.
Qed.

(** Without a valid entry in the in-process store, a lookup is its file
    tier. *)
Lemma getCache_falls_through homedir now key cfg ver w :
  (∀ e, memoryCache w !! key = Some e →
        isValidCacheEntry now e (ttl cfg) ver = false) →
  getCache homedir now key cfg ver w
  = getCacheFromFile homedir now key cfg ver w.
Proof.
  intros Hno. unfold getCache, bind, gets. cbn.
  destruct (memoryCache w !! key) as [m|]; [|done]. by rewrite (Hno m).
Qed.

(** C6: [getCache] never throws; when the lookup reaches the file tier, a
    missing file is a plain miss, and a file that does not parse, or that
    cannot be read, is a miss with one line printed on the console. *)
Theorem getCache_never_throws homedir now key cfg ver w :
  (∃ r w', getCache homedir now key cfg ver w = (Ok r, w'))
  ∧ ((∀ e, memoryCache w !! key = Some e →
           isValidCacheEntry now e (ttl cfg) ver = false) →
     storage cfg = file →
     (files w !! getCacheFilePath homedir key = None →
      getCache homedir now key cfg ver w = (Ok None, w))
     ∧ (∀ text,
          readFails (faults w) = false →
          files w !! getCacheFilePath homedir key = Some (Garbled text) →
          getCache homedir now key cfg ver w
          = (Ok None,
             addConsole ("Error reading cache file for key " +:+ key +:+ ": "
                         +:+ "SyntaxError: Unexpected token in JSON") w))
     ∧ (∀ c,
          readFails (faults w) = true →
          files w !! getCacheFilePath homedir key = Some c →
          getCache homedir now key cfg ver w
          = (Ok None,
             addConsole ("Error reading cache file for key " +:+ key +:+ ": "
                         +:+ "EACCES: permission denied, open") w))).
Proof.
  split; [apply getCache_total|]. intros Hno Hst.
  rewrite (getCache_falls_through _ _ _ _ _ _ Hno). split; [|split].
  - by apply getCacheFromFile_missing.
  - intros text Hr Hf. by apply getCacheFromFile_garbled with text.
  - intros c Hr Hf. by apply getCacheFromFile_unreadable with c.
Qed.

Lemma getCache_never_throws_witness :
  getCache Fixtures.home 1700000000000 Fixtures.buttonKey
    Fixtures.defaultCaching "7.16.2" Fixtures.corruptWorld
  = (Ok None,
     addConsole
       "Error reading cache file for key component_doc_Button_7.16.2: SyntaxError: Unexpected token in JSON"
       Fixtures.corruptWorld).
Proof.
  refine (proj1 (proj2 (proj2 (getCache_never_throws Fixtures.home
                                 1700000000000 Fixtures.buttonKey
                                 Fixtures.defaultCaching "7.16.2"
                                 Fixtures.corruptWorld) _ _))
            "{ data: " _ _);
    first [reflexivity | by intros e].
Defined.

(** *** Writing does not look at the time to live *)



End CacheFacts.

(* ===================================================================== *)
(** ** Properties of the extractor *)
(* ===================================================================== *)

Module FetcherFacts.
Import JsString Eff Fetcher JsStringFacts.

(** *** The property table *)

Lemma pushProp_propOfRow props columns :
  pushProp props columns = props ++ option_list (Spec.propOfRow columns).
Proof.
  unfold pushProp.
  destruct columns as [|c0 [|c1 [|c2 [|c3 rest]]]]; cbn;
    by rewrite ?app_nil_r.
Qed.

Lemma foldl_pushProp props rows :
  foldl pushProp props rows = props ++ omap Spec.propOfRow rows.
Proof.
  revert props. induction rows as [|row rows IH]; intros props; cbn.
  - by rewrite app_nil_r.
  - rewrite IH, pushProp_propOfRow.
    destruct (Spec.propOfRow row); cbn; by rewrite <- ?(assoc_L (++)), ?app_nil_r.
Qed.

Lemma propOfRow_None columns :
  Spec.propOfRow columns = None ↔ (length columns < 4)%nat.
Proof.
  destruct columns as [|c0 [|c1 [|c2 [|c3 rest]]]]; cbn;
    split; first [done | lia].
Qed.

(** *** The related components *)

Lemma fromSet_foldl_NoDup (seen xs : list string) :
  NoDup seen →
  NoDup (foldl (λ seen x, if decide (x ∈ seen) then seen else seen ++ [x])
               seen xs).
Proof.
  revert seen. induction xs as [|x xs IH]; intros seen Hnd; cbn; [done|].
  apply IH. case_decide; [done|].
  apply NoDup_app. split; [done|]. split; [|apply NoDup_singleton].
  intros y Hy ->%list_elem_of_singleton. done.
Qed.

Lemma fromSet_NoDup xs : NoDup (fromSet xs).
Proof. apply fromSet_foldl_NoDup, NoDup_nil_2. Qed.

Lemma fromSet_foldl_elem (seen xs : list string) (y : string) :
  y ∈ foldl (λ seen x, if decide (x ∈ seen) then seen else seen ++ [x])
            seen xs
  ↔ y ∈ seen ∨ y ∈ xs.
Proof.
  revert seen. induction xs as [|x xs IH]; intros seen; cbn.
  - rewrite elem_of_nil. tauto.
  - rewrite IH, elem_of_cons. case_decide as Hx.
    + split; [tauto|]. intros [?|[->|?]]; tauto.
    + rewrite elem_of_app, list_elem_of_singleton. tauto.
Qed.

Lemma fromSet_elem xs (y : string) : y ∈ fromSet xs ↔ y ∈ xs.
Proof.
  unfold fromSet. rewrite fromSet_foldl_elem, elem_of_nil. tauto.
Qed.

(** Where a collected name comes from. *)
Lemma foldl_pushRelated_elem normalizedName acc anchors (y : string) :
  y ∈ foldl (pushRelated normalizedName) acc anchors →
  y ∈ acc
  ∨ ∃ href seg,
      Some href ∈ anchors
      ∧ startsWith "/core/" href = true
      ∧ endsWith (toLowerCase normalizedName) href = false
      ∧ last (split "/" href) = Some seg
      ∧ y = capitalize seg.
Proof.
  revert acc. induction anchors as [|a anchors IH]; intros acc; cbn.
  - by left.
  - intros Hy. apply IH in Hy as [Hy | (href & seg & Hin & Hrest)].
    2:{ right. exists href, seg. split; [by right | done]. }
    unfold pushRelated in Hy.
    destruct a as [href|]; [|by left].
    destruct (truthy href && startsWith "/core/" href
              && negb (endsWith (toLowerCase normalizedName) href)) eqn:Hc;
      [|by left].
    apply andb_true_iff in Hc as [Hc Hends]. apply negb_true_iff in Hends.
    apply andb_true_iff in Hc as [_ Hstart].
    destruct (last (split "/" href)) as [seg|] eqn:Hseg; [|by left].
    destruct (truthy seg); [|by left].
    apply elem_of_app in Hy as [Hy | ->%list_elem_of_singleton]; [by left|].
    right. exists href, seg. split; [by left | done].
Qed.

Lemma extractRelated_NoDup normalizedName anchors :
  NoDup (extractRelated normalizedName anchors).
Proof. apply fromSet_NoDup. Qed.

(** When every [/core/] anchor whose last segment capitalizes to the name
    of the component has that segment in lower case, no collected name is
    the name of the component itself. *)
Lemma extractRelated_not_self componentName anchors :
  (∀ href seg, Some href ∈ anchors → startsWith "/core/" href = true →
               last (split "/" href) = Some seg →
               capitalize seg = capitalize componentName →
               toLowerCase seg = seg) →
  capitalize componentName ∉ extractRelated (capitalize componentName) anchors.
Proof.
  intros Hlow Hin. unfold extractRelated in Hin. rewrite fromSet_elem in Hin.
  apply foldl_pushRelated_elem in Hin
    as [Hin | (href & seg & Hhref & Hstart & Hends & Hseg & Hname)].
  - by apply elem_of_nil in Hin.
  - pose proof (Hlow href seg Hhref Hstart Hseg (eq_sym Hname)) as Hlower.
    rewrite Hname, (toLowerCase_capitalize seg Hlower) in Hends.
    by rewrite (split_last_suffix _ _ _ Hseg) in Hends.
Qed.

(** *** One extraction call *)

Ltac run_fetch :=
  unfold fetchComponentDocFromWebsite, launch, newPage, goto, waitForSelector,
    content, close, failing, tryCatch, bind, ret, throw, gets, modify in *;
  repeat (cbn in *; simplify_eq; try case_match); try done.

(** A successful call returns the record extracted from the rendered
    page, and has closed the browser it launched. *)
Lemma fetch_ok componentName w doc w' :
  fetchComponentDocFromWebsite componentName w = (Ok doc, w') →
  docName doc = capitalize componentName
  ∧ props doc = extractProps (tableRows (rendered (puppeteer w)))
  ∧ relatedComponents doc
    = extractRelated (capitalize componentName)
                     (anchors (rendered (puppeteer w)))
  ∧ openBrowsers w' = openBrowsers w.
Proof. intros H. run_fetch. Qed.

(** A readiness marker that never shows up does not fail the call. *)
Lemma fetch_selector_timeout componentName w :
  launchFails (puppeteer w) = false →
  newPageFails (puppeteer w) = false →
  gotoFails (puppeteer w) = false →
  contentFails (puppeteer w) = false →
  closeFails (puppeteer w) = false →
  ∃ doc w', fetchComponentDocFromWebsite componentName w = (Ok doc, w')
            ∧ openBrowsers w' = openBrowsers w.
Proof.
  intros H1 H2 H3 H4 H5. run_fetch; try congruence;
    eexists _, _; split; reflexivity.
Qed.

(** Whenever a call fails after the launch, the browser is left open. *)
Lemma fetch_failure_leaks componentName w :
  launchFails (puppeteer w) = false →
  newPageFails (puppeteer w) = true ∨ gotoFails (puppeteer w) = true
    ∨ contentFails (puppeteer w) = true →
  ∃ err w', fetchComponentDocFromWebsite componentName w = (Throw err, w')
            ∧ openBrowsers w' = S (openBrowsers w).
Proof.
  intros H1 [H2 | [H2 | H2]]; run_fetch; try congruence;
    eexists _, _; split; reflexivity.
Qed.

(** C7, as stated, fails: on the page of Button, an anchor to
    [/core/Button] puts [Button] among the related components. *)
Lemma relatedComponents_may_contain_self :
  ¬ (∀ componentName w doc w',
       fetchComponentDocFromWebsite componentName w = (Ok doc, w') →
       NoDup (relatedComponents doc)
       ∧ docName doc ∉ relatedComponents doc).
Proof.
  intros H.
  destruct (H "button" (PageFixtures.start (PageFixtures.online
                                              PageFixtures.selfLinkPage))
              _ _ eq_refl) as [_ Hself].
  apply Hself. cbn. by left.
Qed.

(** C7, amended: the related components of an extracted record have no
    duplicates. When the name of the component and the last path segment
    of every anchor whose href starts with [/core/] are text of characters
    below 128, they do not contain the record's own name, provided that
    every such anchor whose last segment capitalizes to the record's name
    has that segment in lower case already. Anchors that do not start
    with [/core/], and anchors to other components however they are
    spelled, are not constrained. *)
Theorem relatedComponents_distinct_not_self componentName w doc w' :
  fetchComponentDocFromWebsite componentName w = (Ok doc, w') →
  NoDup (relatedComponents doc)
  ∧ (Spec.asciiText componentName →
     (∀ href seg,
        Some href ∈ anchors (rendered (puppeteer w)) →
        startsWith "/core/" href = true →
        last (split "/" href) = Some seg →
        Spec.asciiText seg
        ∧ (capitalize seg = docName doc → toLowerCase seg = seg)) →
     docName doc ∉ relatedComponents doc).
Proof.
  intros (Hname & _ & Hrel & _)%fetch_ok. rewrite Hname, Hrel. split.
  - apply extractRelated_NoDup.
  - intros _ Hlow. apply extractRelated_not_self.
    intros href seg Hin Hstart Hseg. by apply (Hlow href seg).
Qed.

Lemma relatedComponents_distinct_not_self_witness :
  ∃ doc w',
    fetchComponentDocFromWebsite "button"
      (PageFixtures.start (PageFixtures.online PageFixtures.mixedCasePage))
    = (Ok doc, w')
    ∧ relatedComponents doc = ["Text"; "Group"]
    ∧ NoDup (relatedComponents doc)
    ∧ docName doc ∉ relatedComponents doc.
Proof.
  eexists _, _. split; [reflexivity|]. split; [reflexivity|].
  destruct (relatedComponents_distinct_not_self "button"
              (PageFixtures.start
                 (PageFixtures.online PageFixtures.mixedCasePage))
              _ _ eq_refl) as [Hnd Hself].
  split; [exact Hnd|]. apply Hself.
  { vm_compute. repeat split; lia. }
  intros href seg Hin Hstart Hseg. cbn in Hin.
  repeat (apply elem_of_cons in Hin as [Hin|Hin];
          [try discriminate Hin; injection Hin as ->;
           vm_compute in Hstart; try discriminate Hstart;
           vm_compute in Hseg; injection Hseg as <-;
           (split;
            [vm_compute; repeat split; lia
            | intros Hcap;
              first [reflexivity | vm_compute in Hcap; discriminate Hcap]]) |]).
  by apply elem_of_nil in Hin.
Defined.

(** C8: the property list of an extracted record has, in page order, one
    entry for each table row of four or more columns, made of the first
    four columns, and none for a shorter row; an entry is required exactly
    when the text of its name column contains the marker. *)
Theorem props_from_rows componentName w doc w' :
  fetchComponentDocFromWebsite componentName w = (Ok doc, w') →
  props doc = omap Spec.propOfRow (tableRows (rendered (puppeteer w)))
  ∧ (∀ acc columns, (length columns < 4)%nat → pushProp acc columns = acc)
  ∧ (∀ acc c0 c1 c2 c3 rest,
       pushProp acc (c0 :: c1 :: c2 :: c3 :: rest)
       = acc ++ [ {| name := trim c0; type := trim c1;
                     defaultValue := orUndefined (trim c2);
                     description := trim c3;
                     required := includes "*" c0 |} ]
       ∧ (includes "*" c0 = true ↔ ∃ a b, c0 = a +:+ String "*" b)).
Proof.
  intros (_ & Hprops & _)%fetch_ok. split; [|split].
  - rewrite Hprops. unfold extractProps. by rewrite foldl_pushProp.
  - intros acc columns Hlen. rewrite pushProp_propOfRow.
    apply propOfRow_None in Hlen as ->. apply app_nil_r.
  - intros acc c0 c1 c2 c3 rest. split; [|apply includes_spec].
    by rewrite pushProp_propOfRow.
Qed.

Lemma props_from_rows_witness :
  ∃ doc w',
    fetchComponentDocFromWebsite "button"
      (PageFixtures.start (PageFixtures.online PageFixtures.buttonPage))
    = (Ok doc, w')
    ∧ props doc
      = [ {| name := "onClick"; type := "() => void"; defaultValue := None;
             description := "Click handler"; required := false |};
          {| name := "color *"; type := "string"; defaultValue := Some "blue";
             description := "Key of theme.colors"; required := true |} ].
Proof.
  eexists _, _. split; [reflexivity|].
  exact (eq_trans
           (proj1 (props_from_rows "button"
                     (PageFixtures.start
                        (PageFixtures.online PageFixtures.buttonPage))
                     _ _ eq_refl))
           eq_refl).
Defined.

(** C9: when the navigation fails, the call ends with an exception and
    the browser it launched is still open. *)
Theorem fetch_leaks_browser_on_navigation_error :
  (fetchComponentDocFromWebsite "button"
     (PageFixtures.start PageFixtures.offline)).1
  = Throw "Failed to fetch documentation for button: net::ERR_CONNECTION_REFUSED at https://mantine.dev/core/button"
  ∧ openBrowsers
      (fetchComponentDocFromWebsite "button"
         (PageFixtures.start PageFixtures.offline)).2 = 1%nat.
Proof. split; reflexivity. Qed.

End FetcherFacts.

(* ===================================================================== *)
(** ** More properties of the cache *)
(* ===================================================================== *)

Module CacheMoreFacts.
Import JsString Eff Json Cache CacheClear JsStringFacts CacheFacts.

Ltac run_clear :=
  unfold clearCache, clearAllCache, unlinkSync, readdirSync in *; run.

(** *** What a lookup depends on *)

(** The result of a lookup is determined by the key's entry in the
    in-process store, the key's file and whether files can be read. *)
Lemma getCache_ext homedir now key cfg ver w1 w2 :
  memoryCache w1 !! key = memoryCache w2 !! key →
  files w1 !! getCacheFilePath homedir key
  = files w2 !! getCacheFilePath homedir key →
  readFails (faults w1) = readFails (faults w2) →
  (getCache homedir now key cfg ver w1).1
  = (getCache homedir now key cfg ver w2).1.
Proof.
  intros Hm Hf Hr.
  assert (Hhit : ∀ d,
    (getCache homedir now key cfg ver w1).1 = Ok (Some d)
    ↔ (getCache homedir now key cfg ver w2).1 = Ok (Some d)).
  { intros d. rewrite !getCache_hit. unfold Spec.onDisk.
    by rewrite Hm, Hf, Hr. }
  destruct (getCache_miss_or_hit homedir now key cfg ver w1) as [H1|[d H1]],
           (getCache_miss_or_hit homedir now key cfg ver w2) as [H2|[d' H2]].
  - by rewrite H1, H2.
  - pose proof (proj2 (Hhit d') H2). congruence.
  - pose proof (proj1 (Hhit d) H1). congruence.
  - pose proof (proj1 (Hhit d) H1). congruence.
Qed.

Lemma getCache_world homedir now key cfg ver w :
  let w' := (getCache homedir now key cfg ver w).2 in
  files w' = files w ∧ faults w' = faults w ∧ dirExists w' = dirExists w
  ∧ (memoryCache w' = memoryCache w
     ∨ ∃ e, Spec.onDisk homedir w key e
            ∧ isValidCacheEntry now e (ttl cfg) ver = true
            ∧ memoryCache w' = <[key := e]> (memoryCache w)).
Proof.
  unfold Spec.onDisk. run. destruct (memoryCache w !! key) as [m|] eqn:Hm; cbn.
  - destruct (isValidCacheEntry now m (ttl cfg) ver) eqn:Hv; cbn.
    + repeat split; by left.
    + destruct (storage cfg); [repeat split; by left|].
      destruct (files w !! getCacheFilePath homedir key) as [c|] eqn:Hf; cbn;
        [|repeat split; by left].
      destruct (readFails (faults w)) eqn:Hr; cbn; [repeat split; by left|].
      rewrite Hf. destruct c as [e|t]; cbn; [|repeat split; by left].
      destruct (isValidCacheEntry now e (ttl cfg) ver) eqn:Hve; cbn;
        [|repeat split; by left].
      repeat split. right. by exists e.
  - destruct (storage cfg); [repeat split; by left|].
    destruct (files w !! getCacheFilePath homedir key) as [c|] eqn:Hf; cbn;
      [|repeat split; by left].
    destruct (readFails (faults w)) eqn:Hr; cbn; [repeat split; by left|].
    rewrite Hf. destruct c as [e|t]; cbn; [|repeat split; by left].
    destruct (isValidCacheEntry now e (ttl cfg) ver) eqn:Hve; cbn;
      [|repeat split; by left].
    repeat split. right. by exists e.
Qed.

(** *** The key [__proto__] *)

(** A lookup, a write and a deletion under a key other than [__proto__]
    leave a store without an entry under [__proto__] as such. *)
Lemma getCache_ordinary homedir now key cfg ver w :
  Spec.ordinaryKey key → Spec.ordinaryStore w →
  Spec.ordinaryStore (getCache homedir now key cfg ver w).2.
Proof.
  unfold Spec.ordinaryKey, Spec.ordinaryStore. intros Hk Hw.
  destruct (getCache_world homedir now key cfg ver w)
    as (_ & _ & _ & [-> | (e & _ & _ & ->)]); [done|].
  by rewrite lookup_insert_ne.
Qed.

(** X1: a lookup under a key other than [__proto__], in a store that
    nothing was written to under [__proto__], never writes or deletes a
    file and never removes an entry from the in-process store, expired
    ones included: the entries of other keys are untouched, and the entry
    of the key stays as it is or, when it is not valid, is replaced by
    the entry of the key's file, which is then valid. The store still has
    nothing under [__proto__] afterwards. *)
Theorem getCache_never_purges homedir now key cfg ver w :
  Spec.ordinaryKey key →
  Spec.ordinaryStore w →
  let w' := (getCache homedir now key cfg ver w).2 in
  files w' = files w
  ∧ (∀ k, k ≠ key → memoryCache w' !! k = memoryCache w !! k)
  ∧ (∀ e, memoryCache w !! key = Some e →
          memoryCache w' !! key = Some e
          ∨ (isValidCacheEntry now e (ttl cfg) ver = false
             ∧ ∃ e', Spec.onDisk homedir w key e'
                     ∧ isValidCacheEntry now e' (ttl cfg) ver = true
                     ∧ memoryCache w' !! key = Some e'))
  ∧ Spec.ordinaryStore w'.
Proof.
  intros Hkey Hstore.
  pose proof (getCache_ordinary homedir now key cfg ver w Hkey Hstore) as Hord.
  destruct (getCache_world homedir now key cfg ver w)
    as (Hf & _ & _ & [Hm | (e' & Hd & Hv & Hm)]); cbn zeta.
  - split; [done|]. rewrite Hm. split; [done|]. split; [|done].
    intros e He. by left.
  - split; [done|]. split; [|split; [|done]].
    + intros k Hk. by rewrite Hm, lookup_insert_ne.
    + intros e He.
      destruct (isValidCacheEntry now e (ttl cfg) ver) eqn:Hve.
      * (* a valid in-process entry is returned before the file is read *)
        left. assert (Hw : (getCache homedir now key cfg ver w).2 = w).
        { unfold getCache, bind, gets, ret. cbn. by rewrite He, Hve. }
        by rewrite Hw.
      * right. split; [done|]. exists e'.
        by rewrite Hm, lookup_insert_eq.
Qed.

Lemma getCache_never_purges_witness :
  files (getCache Fixtures.home 1800000000000 Fixtures.buttonKey
           Fixtures.defaultCaching "7.16.2"
           (setCache Fixtures.home 1700000000000 Fixtures.buttonKey
              Fixtures.plainDoc Fixtures.defaultCaching "7.16.2"
              Fixtures.freshWorld).2).2
  = files (setCache Fixtures.home 1700000000000 Fixtures.buttonKey
             Fixtures.plainDoc Fixtures.defaultCaching "7.16.2"
             Fixtures.freshWorld).2.
Proof.
  refine (proj1 (getCache_never_purges Fixtures.home 1800000000000
                   Fixtures.buttonKey Fixtures.defaultCaching "7.16.2"
                   (setCache Fixtures.home 1700000000000 Fixtures.buttonKey
                      Fixtures.plainDoc Fixtures.defaultCaching "7.16.2"
                      Fixtures.freshWorld).2 _ _)).
  - discriminate.
  - reflexivity.
Defined.

(** X2: asking twice gives the same answer: a lookup repeated at the same
    time, with the same configuration and version, returns what the first
    one returned, a value promoted from the file included. *)
Theorem getCache_repeat homedir now key cfg ver w :
  (getCache homedir now key cfg ver
     (getCache homedir now key cfg ver w).2).1
  = (getCache homedir now key cfg ver w).1.
Proof.
  destruct (getCache_world homedir now key cfg ver w)
    as (Hf & Hfa & _ & [Hm | (e & Hd & Hv & Hm)]).
  - apply getCache_ext; by rewrite ?Hf, ?Hm, ?Hfa.
  - assert (H2 : (getCache homedir now key cfg ver
                    (getCache homedir now key cfg ver w).2).1
                 = Ok (Some (data e))).
    { apply getCache_hit. left. exists e. rewrite Hm, lookup_insert_eq.
      by rewrite <- isValidCacheEntry_spec. }
    rewrite H2. symmetry. apply getCache_hit.
    destruct (memoryCache w !! key) as [m|] eqn:Hmk.
    + destruct (isValidCacheEntry now m (ttl cfg) ver) eqn:Hvm.
      * (* then the first lookup did not touch the store, so [m = e] *)
        assert (Hw : (getCache homedir now key cfg ver w).2 = w).
        { unfold getCache, bind, gets, ret. cbn. by rewrite Hmk, Hvm. }
        rewrite Hw in Hm. apply (f_equal (λ m, m !! key)) in Hm.
        rewrite lookup_insert_eq, Hmk in Hm. injection Hm as ->.
        left. exists e. by rewrite <- isValidCacheEntry_spec.
      * right. split; [|split].
        -- intros m' [= <-]. by apply isValidCacheEntry_false.
        -- destruct cfg as [t [|]]; [|done]. exfalso.
           revert Hm. run. rewrite Hmk, Hvm. cbn. intros Hm.
           apply (f_equal (λ m, m !! key)) in Hm.
           rewrite lookup_insert_eq, Hmk in Hm. injection Hm as ->.
           cbn in Hv. congruence.
        -- exists e. by rewrite <- isValidCacheEntry_spec.
    + right. split; [done|]. split.
      * destruct cfg as [t [|]]; [|done]. exfalso.
        revert Hm. run. rewrite Hmk. cbn. intros Hm.
        apply (f_equal (λ m, m !! key)) in Hm.
        by rewrite lookup_insert_eq, Hmk in Hm.
      * exists e. by rewrite <- isValidCacheEntry_spec.
Qed.

(** *** What a write touches *)

Lemma setCache_files homedir now key v cfg ver w :
  files (setCache homedir now key v cfg ver w).2 = files w
  ∨ files (setCache homedir now key v cfg ver w).2
    = <[getCacheFilePath homedir key :=
          stringify {| data := v; timestamp := now; version := ver |}]> (files w).
Proof.
  run. destruct (storage cfg); [by left|]. fs_cases; auto.
Qed.

Lemma sanitize_ne_key (k1 k2 : string) : sanitize k1 ≠ sanitize k2 → k1 ≠ k2.
Proof. by intros H ->. Qed.

(** X3: in a store that nothing was written to under [__proto__], a write
    under a key other than [__proto__] does not change what a lookup under
    another key returns, unless the two keys share a file name after the
    transform. *)
Theorem setCache_other_key homedir now now' key key' v cfg cfg' ver ver' w :
  Spec.ordinaryKey key →
  Spec.ordinaryStore w →
  sanitize key ≠ sanitize key' →
  (getCache homedir now' key' cfg' ver'
     (setCache homedir now key v cfg ver w).2).1
  = (getCache homedir now' key' cfg' ver' w).1.
Proof.
  intros _ _ Hne. apply getCache_ext.
  - rewrite setCache_memory. apply lookup_insert_ne. by apply sanitize_ne_key.
  - destruct (setCache_files homedir now key v cfg ver w) as [-> | ->]; [done|].
    apply lookup_insert_ne. by rewrite getCacheFilePath_eq.
  - by rewrite setCache_faults.
Qed.

Lemma setCache_other_key_witness :
  (getCache Fixtures.home 1700000000001 "component_doc_Badge_7.16.2"
     Fixtures.defaultCaching "7.16.2"
     (setCache Fixtures.home 1700000000000 Fixtures.buttonKey Fixtures.plainDoc
        Fixtures.defaultCaching "7.16.2" Fixtures.freshWorld).2).1
  = Ok None.
Proof.
  rewrite (setCache_other_key Fixtures.home 1700000000000 1700000000001
             Fixtures.buttonKey "component_doc_Badge_7.16.2" Fixtures.plainDoc
             Fixtures.defaultCaching Fixtures.defaultCaching "7.16.2" "7.16.2"
             Fixtures.freshWorld);
    [reflexivity | discriminate | reflexivity | discriminate].
Defined.

(** X4: two distinct keys that share a file name read each other's data:
    with file storage, after a write under [key2] whose file write
    succeeded, a lookup under [key1], which has no entry of its own in the
    in-process store, returns the JSON image of the value written under
    [key2]. *)
Theorem confusable_keys_share_data homedir now now' key1 key2 v cfg ver w :
  key1 ≠ key2 →
  Spec.confusable key1 key2 →
  storage cfg = file →
  (setCache homedir now key2 v cfg ver w).1 = Ok tt →
  readFails (faults w) = false →
  memoryCache w !! key1 = None →
  0 < ttl cfg →
  now' - now < ttl cfg →
  (getCache homedir now' key1 cfg ver
     (setCache homedir now key2 v cfg ver w).2).1
  = Ok (Some (jsonRoundtrip v)).
Proof.
  intros Hne Hconf Hst Hok Hr Hm Hpos Hage.
  rewrite (getCache_promotes homedir now' key1 cfg ver _
             {| data := jsonRoundtrip v; timestamp := now; version := ver |});
    [done | | done | |].
  - rewrite setCache_memory, lookup_insert_ne; done.
  - split; [by rewrite setCache_faults|].
    rewrite (setCache_file_written _ _ _ _ _ _ _ Hst Hok).
    apply sanitize_eq_confusable in Hconf.
    rewrite (proj2 (getCacheFilePath_eq homedir key1 key2) Hconf).
    apply lookup_insert_eq.
  - apply isValidCacheEntry_spec. unfold Spec.valid. cbn.
    repeat split; [lia | done].
Qed.

Lemma confusable_keys_share_data_witness :
  (getCache Fixtures.home 1700000000001 "component_doc_date_picker_7.16.2"
     Fixtures.defaultCaching "7.16.2"
     (setCache Fixtures.home 1700000000000 "component_doc_date-picker_7.16.2"
        Fixtures.plainDoc Fixtures.defaultCaching "7.16.2"
        Fixtures.freshWorld).2).1
  = Ok (Some Fixtures.plainDoc).
Proof.
  apply (confusable_keys_share_data Fixtures.home 1700000000000 1700000000001
           "component_doc_date_picker_7.16.2" "component_doc_date-picker_7.16.2"
           Fixtures.plainDoc Fixtures.defaultCaching "7.16.2"
           Fixtures.freshWorld);
    first [discriminate | reflexivity | cbn; lia | cbn; intuition done].
Defined.

(** *** Clearing one key *)

Lemma clearCache_world homedir unlinkFails key cfg w :
  let out := clearCache homedir unlinkFails key cfg w in
  out.1 = Ok tt
  ∧ memoryCache out.2 = delete key (memoryCache w)
  ∧ faults out.2 = faults w
  ∧ (files out.2 = files w
     ∨ (storage cfg = file ∧ unlinkFails = false
        ∧ files out.2 = delete (getCacheFilePath homedir key) (files w)))
  ∧ (storage cfg = file → unlinkFails = false →
     files out.2 !! getCacheFilePath homedir key = None).
Proof.
  run_clear. destruct (storage cfg); cbn.
  { repeat split; [by left | done..]. }
  destruct (files w !! getCacheFilePath homedir key) as [c|] eqn:Hf; cbn.
  2:{ repeat split; [by left | done]. }
  destruct unlinkFails; cbn.
  { repeat split; [by left | done]. }
  rewrite Hf. cbn. repeat split; [by right | intros _ _; apply lookup_delete_eq].
Qed.

(** X5: in a store that nothing was written to under [__proto__], clearing
    a key other than [__proto__] never throws and always removes the key
    from the in-process store; when the file system lets the file go, a
    lookup of the key with the same configuration then misses, whatever
    the version and the time. *)
Theorem clearCache_then_getCache homedir unlinkFails key cfg w :
  Spec.ordinaryKey key →
  Spec.ordinaryStore w →
  let out := clearCache homedir unlinkFails key cfg w in
  out.1 = Ok tt
  ∧ memoryCache out.2 !! key = None
  ∧ (unlinkFails = false →
     ∀ now ver, (getCache homedir now key cfg ver out.2).1 = Ok None).
Proof.
  intros _ _.
  destruct (clearCache_world homedir unlinkFails key cfg w)
    as (Hok & Hm & Hfa & _ & Hgone). cbn zeta.
  split; [done|]. split; [rewrite Hm; apply lookup_delete_eq|].
  intros Hu now ver.
  destruct (getCache_miss_or_hit homedir now key cfg ver
              (clearCache homedir unlinkFails key cfg w).2) as [|[d Hd]];
    [done|].
  apply getCache_hit in Hd
    as [(e & He & _) | (_ & Hst & e & [_ He] & _)].
  - by rewrite Hm, lookup_delete_eq in He.
  - by rewrite (Hgone Hst Hu) in He.
Qed.

Lemma clearCache_then_getCache_witness :
  (getCache Fixtures.home 1700000000001 Fixtures.buttonKey
     Fixtures.defaultCaching "7.16.2"
     (clearCache Fixtures.home false Fixtures.buttonKey Fixtures.defaultCaching
        (setCache Fixtures.home 1700000000000 Fixtures.buttonKey
           Fixtures.plainDoc Fixtures.defaultCaching "7.16.2"
           Fixtures.freshWorld).2).2).1
  = Ok None.
Proof.
  refine (proj2 (proj2 (clearCache_then_getCache Fixtures.home false
                          Fixtures.buttonKey Fixtures.defaultCaching
                          (setCache Fixtures.home 1700000000000
                             Fixtures.buttonKey Fixtures.plainDoc
                             Fixtures.defaultCaching "7.16.2"
                             Fixtures.freshWorld).2 _ _))
            eq_refl 1700000000001 "7.16.2").
  - discriminate.
  - reflexivity.
Defined.

(** X6: in a store that nothing was written to under [__proto__], when the
    file system refuses to delete the file of a key other than
    [__proto__], clearing the key still returns normally, removes the key
    from the in-process store, prints one line and leaves the file: a
    later lookup finds in the file the value that was to be cleared. *)
Theorem clearCache_failed_unlink homedir key cfg w c :
  Spec.ordinaryKey key →
  Spec.ordinaryStore w →
  storage cfg = file →
  files w !! getCacheFilePath homedir key = Some c →
  clearCache homedir true key cfg w
  = (Ok tt,
     addConsole ("Error clearing cache file for key " +:+ key +:+ ": "
                 +:+ "EACCES: permission denied, unlink")
       (setMemory (delete key) w))
  ∧ ∀ e now ver,
      c = EntryJson e →
      readFails (faults w) = false →
      isValidCacheEntry now e (ttl cfg) ver = true →
      (getCache homedir now key cfg ver
         (clearCache homedir true key cfg w).2).1 = Ok (Some (data e)).
Proof.
  intros _ _ Hst Hf.
  assert (Hrun : clearCache homedir true key cfg w
    = (Ok tt,
       addConsole ("Error clearing cache file for key " +:+ key +:+ ": "
                   +:+ "EACCES: permission denied, unlink")
         (setMemory (delete key) w))).
  { run_clear. rewrite Hst. cbn. by rewrite Hf. }
  split; [exact Hrun|]. intros e now ver -> Hr Hv. rewrite Hrun. cbn [snd].
  rewrite (getCache_promotes homedir now key cfg ver _ e); [done | | done | | done].
  - cbn. apply lookup_delete_eq.
  - by split.
Qed.

Lemma clearCache_failed_unlink_witness :
  (getCache Fixtures.home 1700000000001 Fixtures.buttonKey
     Fixtures.defaultCaching "7.16.2"
     (clearCache Fixtures.home true Fixtures.buttonKey Fixtures.defaultCaching
        (setCache Fixtures.home 1700000000000 Fixtures.buttonKey
           Fixtures.plainDoc Fixtures.defaultCaching "7.16.2"
           Fixtures.freshWorld).2).2).1
  = Ok (Some Fixtures.plainDoc).
Proof.
  refine (proj2 (clearCache_failed_unlink Fixtures.home Fixtures.buttonKey
                   Fixtures.defaultCaching
                   (setCache Fixtures.home 1700000000000 Fixtures.buttonKey
                      Fixtures.plainDoc Fixtures.defaultCaching "7.16.2"
                      Fixtures.freshWorld).2
                   (stringify {| data := Fixtures.plainDoc;
                                 timestamp := 1700000000000;
                                 version := "7.16.2" |})
                   _ _ eq_refl eq_refl)
            _ 1700000000001 "7.16.2" eq_refl eq_refl eq_refl).
  - discriminate.
  - reflexivity.
Defined.

(** X7: clearing one key does not change what a lookup under another key
    returns, unless the two keys share a file name after the transform. *)
Theorem clearCache_other_key homedir unlinkFails now key key' cfg cfg' ver w :
  sanitize key ≠ sanitize key' →
  (getCache homedir now key' cfg' ver
     (clearCache homedir unlinkFails key cfg w).2).1
  = (getCache homedir now key' cfg' ver w).1.
Proof.
  intros Hne.
  destruct (clearCache_world homedir unlinkFails key cfg w)
    as (_ & Hm & Hfa & Hfiles & _).
  apply getCache_ext.
  - rewrite Hm. apply lookup_delete_ne. by apply sanitize_ne_key.
  - destruct Hfiles as [-> | (_ & _ & ->)]; [done|].
    apply lookup_delete_ne. by rewrite getCacheFilePath_eq.
  - by rewrite Hfa.
Qed.

Lemma clearCache_other_key_witness :
  (getCache Fixtures.home 1700000000001 Fixtures.buttonKey
     Fixtures.defaultCaching "7.16.2"
     (clearCache Fixtures.home false "component_doc_Badge_7.16.2"
        Fixtures.defaultCaching
        (setCache Fixtures.home 1700000000000 Fixtures.buttonKey
           Fixtures.plainDoc Fixtures.defaultCaching "7.16.2"
           Fixtures.freshWorld).2).2).1
  = Ok (Some Fixtures.plainDoc).
Proof.
  rewrite (clearCache_other_key Fixtures.home false 1700000000001
             "component_doc_Badge_7.16.2" Fixtures.buttonKey
             Fixtures.defaultCaching Fixtures.defaultCaching "7.16.2" _);
    [reflexivity | discriminate].
Defined.

(** *** Clearing everything *)

Lemma unlinkSync_world fails path w :
  let out := unlinkSync fails path w in
  memoryCache out.2 = memoryCache w ∧ faults out.2 = faults w
  ∧ dirExists out.2 = dirExists w ∧ console out.2 = console w.
Proof. run_clear. fs_cases. Qed.

Lemma forEach_unlink_world unlinkFails (l : list string) w :
  let out := forEach l (λ p, unlinkSync (unlinkFails p) p) w in
  memoryCache out.2 = memoryCache w ∧ faults out.2 = faults w
  ∧ dirExists out.2 = dirExists w ∧ console out.2 = console w.
Proof.
  revert w. induction l as [|x r IH]; intros w; cbn; [done|].
  unfold bind.
  pose proof (unlinkSync_world (unlinkFails x) x w) as (H1 & H2 & H3 & H4).
  destruct (unlinkSync (unlinkFails x) x w) as [[[]|err] w1]; cbn in *; [|done].
  destruct (IH w1) as (I1 & I2 & I3 & I4). cbn in *.
  by rewrite I1, I2, I3, I4.
Qed.

(** Deleting every listed file, when nothing fails. *)
Lemma forEach_unlink_all unlinkFails (l : list string) w :
  (∀ p, unlinkFails p = false) →
  NoDup l →
  (∀ p, p ∈ l → is_Some (files w !! p)) →
  let out := forEach l (λ p, unlinkSync (unlinkFails p) p) w in
  out.1 = Ok tt
  ∧ ∀ p, files out.2 !! p = if decide (p ∈ l) then None else files w !! p.
Proof.
  intros Hu. revert w. induction l as [|x r IH]; intros w Hnd Hin; cbn.
  { split; [done|]. intros p. case_decide as Hp; [|done].
    by apply elem_of_nil in Hp. }
  apply NoDup_cons in Hnd as [Hx Hnd].
  destruct (Hin x) as [c Hc]; [by left|].
  unfold bind, unlinkSync at 1 3. rewrite Hu, Hc.
  destruct (IH (setFiles (delete x) w) Hnd) as [Hok Hfiles].
  { intros p Hp. cbn. rewrite lookup_delete_ne; [|by intros ->].
    apply Hin. by right. }
  split; [exact Hok|]. intros p. rewrite Hfiles. cbn.
  destruct (decide (p = x)) as [->|Hne].
  - rewrite decide_False by done. rewrite decide_True by by left.
    apply lookup_delete_eq.
  - rewrite lookup_delete_ne by done.
    destruct (decide (p ∈ r)) as [Hr|Hr].
    + rewrite decide_True; [done | by right].
    + rewrite decide_False; [done|].
      intros [?|?]%elem_of_cons; done.
Qed.

Lemma ensureCacheDir_world w :
  let out := ensureCacheDir w in
  memoryCache out.2 = memoryCache w ∧ faults out.2 = faults w
  ∧ files out.2 = files w
  ∧ (dirExists w = true ∨ mkdirFails (faults w) = false → out.1 = Ok tt).
Proof.
  run. destruct (dirExists w) eqn:Hd; cbn.
  - done.
  - destruct (mkdirFails (faults w)) eqn:Hm; cbn; repeat split; try done.
    intros [?|?]; done.
Qed.

(** X8: in a store that nothing was written to under [__proto__],
    clearing everything never throws and always empties the in-process
    store; when the directory can be listed and every file deleted, no
    file is left, and a lookup of any key with the same configuration then
    misses. *)
Theorem clearAllCache_then_getCache homedir readdirFails unlinkFails cfg w :
  Spec.ordinaryStore w →
  let out := clearAllCache readdirFails unlinkFails cfg w in
  out.1 = Ok tt
  ∧ memoryCache out.2 = ∅
  ∧ (readdirFails = false →
     (∀ p, unlinkFails p = false) →
     dirExists w = true ∨ mkdirFails (faults w) = false →
     (storage cfg = file → files out.2 = ∅)
     ∧ ∀ key now ver, (getCache homedir now key cfg ver out.2).1 = Ok None).
Proof.
  intros _. cbn zeta.
  assert (Hgen : (clearAllCache readdirFails unlinkFails cfg w).1 = Ok tt
                 ∧ memoryCache (clearAllCache readdirFails unlinkFails cfg w).2 = ∅).
  { cbv [clearAllCache bind modify tryCatch consoleError].
    destruct (storage cfg); [done|].
    pose proof (ensureCacheDir_world (setMemory (λ _, ∅) w)) as (E1 & _).
    destruct (ensureCacheDir (setMemory (λ _, ∅) w)) as [[[]|err] w1];
      [|by cbn in *; rewrite E1].
    cbv [readdirSync]. destruct readdirFails; [by cbn in *; rewrite E1|].
    pose proof (forEach_unlink_world unlinkFails (map_to_list (files w1)).*1 w1)
      as (F1 & _).
    destruct (forEach _ _ w1) as [[[]|err] w2]; cbn in *; by rewrite F1, E1. }
  destruct Hgen as [Hok Hmem]. split; [done|]. split; [done|].
  intros -> Hu Hdir.
  assert (Hfiles : storage cfg = file →
                   files (clearAllCache false unlinkFails cfg w).2 = ∅).
  { intros Hst. cbv [clearAllCache bind modify tryCatch consoleError].
    rewrite Hst.
    pose proof (ensureCacheDir_world (setMemory (λ _, ∅) w))
      as (_ & _ & E3 & E4).
    destruct (ensureCacheDir (setMemory (λ _, ∅) w)) as [[[]|err] w1];
      [|by discriminate (E4 Hdir)].
    cbv [readdirSync].
    destruct (forEach_unlink_all unlinkFails (map_to_list (files w1)).*1 w1)
      as [F1 F2].
    { exact Hu. }
    { apply NoDup_fst_map_to_list. }
    { intros p Hp. apply list_elem_of_fmap_1 in Hp as ([p' c] & -> & Hp).
      apply elem_of_map_to_list in Hp. cbn. by rewrite Hp. }
    destruct (forEach _ _ w1) as [[[]|err] w2]; cbn in *; [|done].
    apply map_eq. intros p. rewrite F2, lookup_empty.
    case_decide as Hp; [done|].
    destruct (files w1 !! p) as [c|] eqn:Hc; [|done].
    exfalso. apply Hp. apply list_elem_of_fmap. exists (p, c).
    split; [done|]. by apply elem_of_map_to_list. }
  split; [exact Hfiles|]. intros key now ver.
  destruct (getCache_miss_or_hit homedir now key cfg ver
              (clearAllCache false unlinkFails cfg w).2) as [|[d Hd]];
    [done|].
  apply getCache_hit in Hd
    as [(e & He & _) | (_ & Hst & e & [_ He] & _)].
  - by rewrite Hmem, lookup_empty in He.
  - by rewrite (Hfiles Hst), lookup_empty in He.
Qed.

Lemma clearAllCache_then_getCache_witness :
  (getCache Fixtures.home 1700000000001 Fixtures.buttonKey
     Fixtures.defaultCaching "7.16.2"
     (clearAllCache false (λ _, false) Fixtures.defaultCaching
        (setCache Fixtures.home 1700000000000 Fixtures.buttonKey
           Fixtures.plainDoc Fixtures.defaultCaching "7.16.2"
           Fixtures.freshWorld).2).2).1
  = Ok None.
Proof.
  refine (proj2 (proj2 (proj2 (clearAllCache_then_getCache Fixtures.home false
                                 (λ _, false) Fixtures.defaultCaching
                                 (setCache Fixtures.home 1700000000000
                                    Fixtures.buttonKey Fixtures.plainDoc
                                    Fixtures.defaultCaching "7.16.2"
                                    Fixtures.freshWorld).2 _))
                   eq_refl (λ _, eq_refl) _)
            Fixtures.buttonKey 1700000000001 "7.16.2").
  - reflexivity.
  - by left.
Defined.

(** *** Memory-only storage *)



End CacheMoreFacts.

(* ===================================================================== *)
(** ** More properties of the extractor *)
(* ===================================================================== *)

Module FetcherMoreFacts.
Import JsString Eff Fetcher JsStringFacts FetcherFacts ExtractorSpec.

(** *** The examples *)

Lemma foldl_pushExample acc i blocks :
  foldl pushExample (acc, i) blocks
  = (acc ++ imap (λ j, exampleAt (i + j)) blocks, (i + length blocks)%nat).
Proof.
  revert acc i. induction blocks as [|b blocks IH]; intros acc i; cbn.
  - by rewrite app_nil_r, Nat.add_0_r.
  - rewrite IH. f_equal; [|lia]. rewrite <- (assoc_L (++)). cbn.
    rewrite Nat.add_0_r. do 2 f_equal.
    apply imap_ext. intros j x _. cbn. f_equal. lia.
Qed.

(** X10: the examples of a page are its code blocks in page order, one
    example per block; a block without a heading is titled ["Example N"]
    where [N] is the 1-based position of the block among all code blocks
    of the page. *)
Theorem extractExamples_positions blocks :
  extractExamples blocks = imap exampleAt blocks
  ∧ length (extractExamples blocks) = length blocks
  ∧ ∀ i b, blocks !! i = Some b →
           trim (prevHeading b) = "" →
           title <$> extractExamples blocks !! i
           = Some ("Example " +:+ numberToString (i + 1)).
Proof.
  assert (H : extractExamples blocks = imap exampleAt blocks).
  { unfold extractExamples. by rewrite foldl_pushExample. }
  split; [exact H|]. rewrite H. split; [apply length_imap|].
  intros i b Hb Hh. rewrite list_lookup_imap, Hb. cbn. by rewrite Hh.
Qed.

Lemma extractExamples_positions_witness :
  title <$> extractExamples twoBlocks !! 1%nat = Some "Example 2".
Proof.
  exact (proj2 (proj2 (extractExamples_positions twoBlocks)) 1%nat
           {| prevHeading := " "; codeText := "b"; prevParagraph := "" |}
           eq_refl eq_refl).
Defined.

(** *** The related components *)

Lemma pushRelated_mono normalizedName acc href (y : string) :
  y ∈ acc → y ∈ pushRelated normalizedName acc href.
Proof.
  intros Hy. unfold pushRelated. repeat case_match; try done.
  apply elem_of_app. by left.
Qed.

Lemma foldl_pushRelated_mono normalizedName acc anchors (y : string) :
  y ∈ acc → y ∈ foldl (pushRelated normalizedName) acc anchors.
Proof.
  revert acc. induction anchors as [|a anchors IH]; intros acc Hy; cbn;
    [done|].
  by apply IH, pushRelated_mono.
Qed.

Lemma startsWith_truthy (href : string) :
  startsWith "/core/" href = true → truthy href = true.
Proof. by destruct href. Qed.

Lemma truthy_ne (s : string) : truthy s = true ↔ s ≠ "".
Proof. by destruct s. Qed.

(** Where the collected names come from, all conditions included. *)
Lemma foldl_pushRelated_from normalizedName acc anchors (y : string) :
  y ∈ foldl (pushRelated normalizedName) acc anchors →
  y ∈ acc
  ∨ ∃ href seg,
      Some href ∈ anchors
      ∧ startsWith "/core/" href = true
      ∧ endsWith (toLowerCase normalizedName) href = false
      ∧ last (split "/" href) = Some seg
      ∧ seg ≠ ""
      ∧ y = capitalize seg.
Proof.
  revert acc. induction anchors as [|a anchors IH]; intros acc; cbn.
  - by left.
  - intros Hy. apply IH in Hy as [Hy | (href & seg & Hin & Hrest)].
    2:{ right. exists href, seg. split; [by right | done]. }
    unfold pushRelated in Hy.
    destruct a as [href|]; [|by left].
    destruct (truthy href && startsWith "/core/" href
              && negb (endsWith (toLowerCase normalizedName) href)) eqn:Hc;
      [|by left].
    apply andb_true_iff in Hc as [Hc Hends]. apply negb_true_iff in Hends.
    apply andb_true_iff in Hc as [_ Hstart].
    destruct (last (split "/" href)) as [seg|] eqn:Hseg; [|by left].
    destruct (truthy seg) eqn:Ht; [|by left].
    apply elem_of_app in Hy as [Hy | ->%list_elem_of_singleton]; [by left|].
    right. exists href, seg. split; [by left|].
    by rewrite <- truthy_ne.
Qed.

(** X11: a name is among the related components of a page exactly when it
    is the capitalized last path segment of some anchor whose href starts
    with [/core/], does not end with the lower-cased component name and
    does not end with a slash (its last segment is not empty). *)
Theorem extractRelated_elem normalizedName anchors (y : string) :
  y ∈ extractRelated normalizedName anchors
  ↔ ∃ href seg,
      Some href ∈ anchors
      ∧ startsWith "/core/" href = true
      ∧ endsWith (toLowerCase normalizedName) href = false
      ∧ last (split "/" href) = Some seg
      ∧ seg ≠ ""
      ∧ y = capitalize seg.
Proof.
  unfold extractRelated. rewrite fromSet_elem. split.
  - intros [Hy|H]%foldl_pushRelated_from; [by apply elem_of_nil in Hy | done].
  - intros (href & seg & Hin & Hstart & Hends & Hseg & Hne & ->).
    generalize (@nil string).
    induction anchors as [|a anchors IH]; intros acc; cbn.
    { by apply elem_of_nil in Hin. }
    apply elem_of_cons in Hin as [<- | Hin]; [|by apply IH].
    apply foldl_pushRelated_mono. unfold pushRelated.
    rewrite (startsWith_truthy _ Hstart), Hstart, Hends, Hseg. cbn.
    apply truthy_ne in Hne as ->. apply elem_of_app. right.
    by apply list_elem_of_singleton.
Qed.

(** *** The outcomes of one extraction call *)

Lemma fetch_runs_ok componentName w :
  launchFails (puppeteer w) = false →
  newPageFails (puppeteer w) = false →
  gotoFails (puppeteer w) = false →
  contentFails (puppeteer w) = false →
  closeFails (puppeteer w) = false →
  ∃ doc, fetchComponentDocFromWebsite componentName w = (Ok doc, w).
Proof.
  intros H1 H2 H3 H4 H5. destruct w as [p n c]. cbn in *.
  unfold fetchComponentDocFromWebsite, launch, newPage, goto, waitForSelector,
    content, close, failing, tryCatch, bind, ret, throw, gets, modify.
  cbn. rewrite H1. cbn. rewrite H2. cbn. rewrite H3. cbn.
  destruct (selectorTimesOut p); cbn; rewrite H4; cbn; rewrite H5; cbn;
    by eexists.
Qed.

(** A rejected [browser.close()] fails a call that has rendered the page,
    and the browser stays open. *)
Lemma fetch_close_rejected componentName w :
  launchFails (puppeteer w) = false →
  newPageFails (puppeteer w) = false →
  gotoFails (puppeteer w) = false →
  contentFails (puppeteer w) = false →
  closeFails (puppeteer w) = true →
  ∃ w',
    fetchComponentDocFromWebsite componentName w
    = (Throw ("Failed to fetch documentation for " +:+ componentName +:+ ": "
              +:+ "Protocol error (Browser.close): Target closed"), w')
    ∧ openBrowsers w' = S (openBrowsers w).
Proof.
  intros H1 H2 H3 H4 H5.
  unfold fetchComponentDocFromWebsite, launch, newPage, goto, waitForSelector,
    content, close, failing, tryCatch, bind, ret, throw, gets, modify.
  cbn. rewrite H1. cbn. rewrite H2. cbn. rewrite H3. cbn.
  destruct (selectorTimesOut (puppeteer w)); cbn; rewrite H4; cbn;
    rewrite H5; cbn; by eexists.
Qed.

Lemma fetch_runs_fail componentName w :
  launchFails (puppeteer w) = true ∨ newPageFails (puppeteer w) = true
  ∨ gotoFails (puppeteer w) = true ∨ contentFails (puppeteer w) = true →
  ∃ cause w',
    fetchComponentDocFromWebsite componentName w
    = (Throw ("Failed to fetch documentation for " +:+ componentName +:+ ": "
              +:+ cause), w').
Proof.
  intros H.
  unfold fetchComponentDocFromWebsite, launch, newPage, goto, waitForSelector,
    content, close, failing, tryCatch, bind, ret, throw, gets, modify.
  cbn.
  destruct (launchFails (puppeteer w)) eqn:H1; cbn; [by eexists _, _|].
  destruct (newPageFails (puppeteer w)) eqn:H2; cbn; [by eexists _, _|].
  destruct (gotoFails (puppeteer w)) eqn:H3; cbn; [by eexists _, _|].
  destruct (selectorTimesOut (puppeteer w)); cbn;
    (destruct (contentFails (puppeteer w)) eqn:H4; cbn;
     [by eexists _, _ | by destruct H as [?|[?|[?|?]]]]).
Qed.

(** X12: when the browser launches, the page opens, the navigation
    succeeds, the content can be read and the browser closes, the call
    returns the record extracted from the rendered page whether or not the
    wait for the readiness marker timed out, and leaves the world as it
    found it: the browser is closed and nothing is printed. *)
Theorem fetch_success componentName w :
  launchFails (puppeteer w) = false →
  newPageFails (puppeteer w) = false →
  gotoFails (puppeteer w) = false →
  contentFails (puppeteer w) = false →
  closeFails (puppeteer w) = false →
  ∃ doc,
    fetchComponentDocFromWebsite componentName w = (Ok doc, w)
    ∧ docName doc = capitalize componentName
    ∧ url doc = "https://mantine.dev/core/"
                +:+ toLowerCase (capitalize componentName)
    ∧ docDescription doc = trim (titleParagraph (rendered (puppeteer w)))
    ∧ props doc = extractProps (tableRows (rendered (puppeteer w)))
    ∧ examples doc = extractExamples (codeBlocks (rendered (puppeteer w)))
    ∧ relatedComponents doc
      = extractRelated (capitalize componentName)
                       (anchors (rendered (puppeteer w))).
Proof.
  intros H1 H2 H3 H4 H5. destruct w as [p n c]. cbn in *.
  unfold fetchComponentDocFromWebsite, launch, newPage, goto, waitForSelector,
    content, close, failing, tryCatch, bind, ret, throw, gets, modify.
  cbn. rewrite H1. cbn. rewrite H2. cbn. rewrite H3. cbn.
  destruct (selectorTimesOut p); cbn; rewrite H4; cbn; rewrite H5; cbn;
    eexists; (split; [reflexivity|]); done.
Qed.

Lemma fetch_success_witness :
  ∃ doc,
    fetchComponentDocFromWebsite "button"
      (PageFixtures.start (PageFixtures.online PageFixtures.buttonPage))
    = (Ok doc,
       PageFixtures.start (PageFixtures.online PageFixtures.buttonPage))
    ∧ url doc = "https://mantine.dev/core/button".
Proof.
  destruct (fetch_success "button"
              (PageFixtures.start (PageFixtures.online PageFixtures.buttonPage))
              eq_refl eq_refl eq_refl eq_refl eq_refl)
    as (doc & Hrun & _ & Hurl & _).
  exists doc. split; [exact Hrun | exact Hurl].
Defined.

(** X13: when the launch, the opening of the page, the navigation or the
    reading of the content fails, the call throws "Failed to fetch
    documentation for <name>: <cause>" with the name as the caller gave
    it, prints one line and returns no record; a failed launch leaves no
    browser behind. *)
Theorem fetch_failure componentName w :
  launchFails (puppeteer w) = true ∨ newPageFails (puppeteer w) = true
  ∨ gotoFails (puppeteer w) = true ∨ contentFails (puppeteer w) = true →
  ∃ cause w',
    fetchComponentDocFromWebsite componentName w
    = (Throw ("Failed to fetch documentation for " +:+ componentName +:+ ": "
              +:+ cause), w')
    ∧ console w'
      = console w ++ ["Error fetching documentation for " +:+ componentName
                      +:+ ": " +:+ cause]
    ∧ puppeteer w' = puppeteer w
    ∧ (launchFails (puppeteer w) = true → openBrowsers w' = openBrowsers w).
Proof.
  intros H.
  unfold fetchComponentDocFromWebsite, launch, newPage, goto, waitForSelector,
    content, close, failing, tryCatch, bind, ret, throw, gets, modify.
  cbn.
  destruct (launchFails (puppeteer w)) eqn:H1; cbn.
  { eexists _, _. split; [reflexivity|]. done. }
  destruct (newPageFails (puppeteer w)) eqn:H2; cbn.
  { eexists _, _. split; [reflexivity|]. done. }
  destruct (gotoFails (puppeteer w)) eqn:H3; cbn.
  { eexists _, _. split; [reflexivity|]. done. }
  destruct (selectorTimesOut (puppeteer w)); cbn;
    (destruct (contentFails (puppeteer w)) eqn:H4; cbn;
     [eexists _, _; split; [reflexivity|]; done
     | by destruct H as [?|[?|[?|?]]]]).
Qed.

Lemma fetch_failure_witness :
  ∃ w',
    fetchComponentDocFromWebsite "button"
      (PageFixtures.start PageFixtures.offline)
    = (Throw "Failed to fetch documentation for button: net::ERR_CONNECTION_REFUSED at https://mantine.dev/core/button",
       w').
Proof.
  destruct (fetch_failure "button" (PageFixtures.start PageFixtures.offline)
              (or_intror (or_intror (or_introl eq_refl))))
    as (cause & w' & Hrun & _).
  exists w'. rewrite Hrun. vm_compute in Hrun. by injection Hrun as <- <-.
Defined.

End FetcherMoreFacts.

(* ===================================================================== *)
(** ** Properties of the catalog and of the search *)
(* ===================================================================== *)

Module ListerFacts.
Import JsString Eff Lister.

Ltac run_list :=
  unfold listAllComponents, launch, newPage, goto, evaluate, close, failing,
    tryCatch, bind, ret, throw, gets, modify in *;
  repeat (cbn in *; simplify_eq; try case_match); try done.

Lemma truthy_empty (s : string) : truthy s = false ↔ s = "".
Proof. by destruct s. Qed.

(** The name made of a link [pre/seg] whose [seg] has no slash: [seg]
    with its first letter in upper case, and nothing when [seg] is empty,
    that is when the href ends with a slash. *)
Lemma linkName_segment (pre seg : string) :
  includes "/" seg = false →
  linkName (Some (pre +:+ String "/" seg))
  = if decide (seg = "") then None else Some (capitalize seg).
Proof.
  intros Hseg. unfold linkName.
  rewrite (JsStringFacts.last_split_app "/" pre seg Hseg).
  assert (Ht : truthy (pre +:+ String "/" seg) = true) by by destruct pre.
  rewrite Ht. case_decide as He.
  - by rewrite (proj2 (truthy_empty seg) He).
  - destruct (truthy seg) eqn:Hts; [done|]. by apply truthy_empty in Hts.
Qed.

(** X14: listing the components never throws. When every puppeteer call
    succeeds, the close included, it returns one name for each link
    [pre/seg] that does not end with a slash ([seg], free of slashes, is
    not empty), namely [seg] with its first letter in upper case, in page
    order and with repetitions kept, and leaves the world as it found it;
    when a call fails it returns the built-in catalog, which is not empty,
    and prints one line. *)
Theorem listAllComponents_outcomes w :
  (launchFails (navigation w) = false →
   newPageFails (navigation w) = false →
   gotoFails (navigation w) = false →
   evaluateFails (navigation w) = false →
   closeFails (navigation w) = false →
   ∃ names,
     listAllComponents w = (Ok names, w)
     ∧ names = omap linkName (navLinks (navigation w))
     ∧ (∀ pre seg, includes "/" seg = false →
          linkName (Some (pre +:+ String "/" seg))
          = if decide (seg = "") then None else Some (capitalize seg))
     ∧ (∀ segs, Forall (λ seg, includes "/" seg = false ∧ seg ≠ "") segs →
          navLinks (navigation w) = (λ seg, Some ("/core/" +:+ seg)) <$> segs →
          names = capitalize <$> segs))
  ∧ (launchFails (navigation w) = true ∨ newPageFails (navigation w) = true
     ∨ gotoFails (navigation w) = true ∨ evaluateFails (navigation w) = true
     ∨ closeFails (navigation w) = true →
     ∃ cause w',
       listAllComponents w = (Ok FALLBACK, w')
       ∧ console w' = console w ++ ["Error listing all components: " +:+ cause]
       ∧ FALLBACK ≠ []).
Proof.
  split.
  - intros H1 H2 H3 H4 H5. exists (omap linkName (navLinks (navigation w))).
    split; [|split; [done|split]].
    + destruct w as [n o c]. run_list; congruence.
    + apply linkName_segment.
    + intros segs Hsegs ->. clear -Hsegs.
      induction Hsegs as [|seg segs [Hs Hne] _ IH]; [done|].
      cbn -[linkName].
      change ("/core/" +:+ seg) with ("/core" +:+ String "/" seg).
      rewrite (linkName_segment "/core" seg Hs), decide_False by done.
      by rewrite IH.
  - intros H. run_list;
      first [ by (destruct H as [?|[?|[?|[?|?]]]]; congruence)
            | eexists _, _; (split; [reflexivity|]); done ].
Qed.

Lemma listAllComponents_outcomes_witness :
  listAllComponents MoreFixtures.navOnline
  = (Ok ["Action-icon"; "Action-icon"; "Text"], MoreFixtures.navOnline).
Proof.
  destruct (proj1 (listAllComponents_outcomes MoreFixtures.navOnline)
              eq_refl eq_refl eq_refl eq_refl eq_refl)
    as (names & Hrun & Hnames & _).
  rewrite Hrun, Hnames. reflexivity.
Defined.

(** X15: when a puppeteer call fails after the launch, the catalog call
    returns the built-in list and leaves the browser it launched open;
    when the launch itself fails no browser is left. *)
Theorem listAllComponents_leaks_browser w :
  (launchFails (navigation w) = false →
   newPageFails (navigation w) = true ∨ gotoFails (navigation w) = true
   ∨ evaluateFails (navigation w) = true →
   (listAllComponents w).1 = Ok FALLBACK
   ∧ openBrowsers (listAllComponents w).2 = S (openBrowsers w))
  ∧ (launchFails (navigation w) = true →
     (listAllComponents w).1 = Ok FALLBACK
     ∧ openBrowsers (listAllComponents w).2 = openBrowsers w).
Proof.
  split.
  - intros H1 H. run_list; destruct H as [?|[?|?]]; congruence.
  - intros H1. run_list.
Qed.

Lemma listAllComponents_leaks_browser_witness :
  openBrowsers (listAllComponents MoreFixtures.navOffline).2 = 1%nat.
Proof.
  exact (proj2 (proj1 (listAllComponents_leaks_browser MoreFixtures.navOffline)
                  eq_refl (or_intror (or_introl eq_refl)))).
Defined.

End ListerFacts.

Module SearchFacts.
Import JsString Eff Json Search.

Lemma getProp_notNullish {W} name v (w : W) :
  notNullish v →
  getProp name v w
  = (Ok (match v with JObj props => lookupProp name props | _ => JUndefined end),
     w).
Proof. intros [H1 H2]. by destruct v. Qed.

(** Filtering and then mapping a list without [null] gives the titles of
    the results of kind component. *)
Lemma filter_then_map {W} (items : list JsValue) (w : W) :
  Forall notNullish items →
  ∃ components,
    filterComponents items w = (Ok components, w)
    ∧ mapTitles components w = (Ok (omap componentTitle items), w).
Proof.
  induction 1 as [|item items Hitem _ (components & Hf & Hm)]; cbn.
  - by exists [].
  - unfold bind. rewrite (getProp_notNullish _ _ _ Hitem), Hf. cbn.
    destruct item as [ | | b | n | s | ms | l | props ]; cbn;
      try (by exists components).
    destruct (strictEqualsString (lookupProp "type" props) "component");
      cbn; [|by exists components].
    eexists. split; [reflexivity|]. cbn. unfold bind. cbn. by rewrite Hm.
Qed.

(** A [null] or [undefined] among the results makes the filter throw. *)
Lemma filterComponents_nullish {W} (items : list JsValue) (w : W) :
  Exists (λ v, v = JNull ∨ v = JUndefined) items →
  ∃ err, filterComponents items w = (Throw err, w).
Proof.
  induction 1 as [item items [-> | ->] | item items _ (err & IH)]; cbn.
  - by eexists.
  - by eexists.
  - unfold bind. destruct item; cbn; rewrite ?IH; by eexists.
Qed.

Lemma filterComponents_total {W} (items : list JsValue) (w : W) :
  ∃ r, filterComponents items w = (r, w).
Proof.
  induction items as [|item items (r & IH)]; cbn; [by eexists|].
  unfold bind. destruct item; cbn; rewrite ?IH; try by eexists.
  all: destruct r; cbn; by eexists.
Qed.

Lemma mapTitles_total {W} (items : list JsValue) (w : W) :
  ∃ r, mapTitles items w = (r, w).
Proof.
  induction items as [|item items (r & IH)]; cbn; [by eexists|].
  unfold bind. destruct item; cbn; rewrite ?IH; try by eexists.
  all: destruct r; cbn; by eexists.
Qed.

(** X16: a search whose response carries an array [results] without
    [null] returns, in order, the [title] of every result whose [type] is
    the string [component], skipping the other results and the values
    that are not objects, and prints nothing. *)
Theorem searchComponents_titles query props items console :
  lookupProp "results" props = JArr items →
  Forall notNullish items →
  searchComponents query (Response (JObj props)) console
  = (Ok (omap componentTitle items), console).
Proof.
  intros Hres Hitems.
  destruct (filter_then_map items console Hitems) as (components & Hf & Hm).
  unfold searchComponents, tryCatch, bind. cbn. rewrite Hres, Hf. cbn.
  by rewrite Hm.
Qed.

Lemma searchComponents_titles_witness :
  searchComponents "button"
    (Response (JObj [("results", JArr MoreFixtures.searchItems)])) []
  = (Ok [JStr "Button"; JStr "ActionIcon"], []).
Proof.
  apply (searchComponents_titles "button"
           [("results", JArr MoreFixtures.searchItems)]
           MoreFixtures.searchItems []); [reflexivity|].
  repeat (apply List.Forall_cons; [split; discriminate|]).
  apply List.Forall_nil.
Defined.

(** X17: a search never throws. A failed request returns the empty list
    and prints one line; a response whose data is not an object with an
    array [results] returns the empty list silently; a single [null] among
    the results discards all of them: the empty list, and one line
    printed. *)
Theorem searchComponents_degrades query console :
  (∀ outcome, ∃ titles console',
     searchComponents query outcome console = (Ok titles, console'))
  ∧ (∀ message,
       searchComponents query (NetworkError message) console
       = (Ok [],
          console ++ ["Error searching for components with query "
                      +:+ String "034" (query +:+ String "034" (": " +:+ message))]))
  ∧ (∀ data,
       (∀ props items, data = JObj props →
                       lookupProp "results" props ≠ JArr items) →
       searchComponents query (Response data) console = (Ok [], console))
  ∧ (∀ props items,
       lookupProp "results" props = JArr items →
       Exists (λ v, v = JNull ∨ v = JUndefined) items →
       ∃ line, searchComponents query (Response (JObj props)) console
               = (Ok [], console ++ [line])).
Proof.
  split; [|split; [|split]].
  - intros [message | data]; unfold searchComponents, tryCatch, bind; cbn.
    { by eexists _, _. }
    destruct (truthyValue data); [|by eexists _, _].
    destruct data as [ | | b | n | s | ms | l | props ]; cbn;
      try by eexists _, _.
    destruct (lookupProp "results" props) as [ | | b | n | s | ms | items | ps ];
      cbn; try by eexists _, _.
    destruct (filterComponents_total items console) as ([components|err] & ->);
      cbn; [|by eexists _, _].
    destruct (mapTitles_total components console) as ([titles|err] & ->);
      cbn; by eexists _, _.
  - done.
  - intros data Hno. unfold searchComponents, tryCatch, bind. cbn.
    destruct data as [ | | b | n | s | ms | l | ps ]; cbn; try done;
      [by destruct b | by case_bool_decide | by destruct (truthy s) |].
    destruct (lookupProp "results" ps) as [ | | b | n | s | ms | items | ps' ]
      eqn:Hres; cbn; try done.
    by destruct (Hno ps items eq_refl).
  - intros props items Hres Hnull.
    destruct (filterComponents_nullish items console Hnull) as (err & Hf).
    unfold searchComponents, tryCatch, bind. cbn. rewrite Hres, Hf. cbn.
    by eexists.
Qed.

Lemma searchComponents_degrades_witness :
  ∃ line,
    searchComponents "button"
      (Response (JObj [("results", JArr (MoreFixtures.searchItems ++ [JNull]))]))
      []
    = (Ok [], [line]).
Proof.
  apply (proj2 (proj2 (proj2 (searchComponents_degrades "button" [])))
           [("results", JArr (MoreFixtures.searchItems ++ [JNull]))]
           (MoreFixtures.searchItems ++ [JNull]) eq_refl).
  apply Exists_app. right. apply List.Exists_cons_hd. by left.
Defined.

End SearchFacts.

(* ===================================================================== *)
(** ** Properties of the documentation service *)
(* ===================================================================== *)

Module ServiceFacts.
Import JsString Eff Json Service.
Import CacheFacts CacheMoreFacts FetcherMoreFacts.

Lemma consultCache_forced homedir now name w :
  consultCache homedir now name true w = (Ok None, w).
Proof.
  unfold consultCache, bind, gets, ret. cbn.
  by destruct (cachingDocumentation (config w)).
Qed.

Lemma consultCache_world homedir now name b w :
  let out := consultCache homedir now name b w in
  webWorld out.2 = webWorld w ∧ config out.2 = config w
  ∧ Cache.files (cacheWorld out.2) = Cache.files (cacheWorld w)
  ∧ Cache.faults (cacheWorld out.2) = Cache.faults (cacheWorld w)
  ∧ (∃ r, out.1 = Ok r).
Proof.
  cbv [consultCache bind gets ret liftCache].
  destruct (cachingDocumentation (config w)) as [cfg|]; [|by eauto 10].
  destruct b; cbn [negb]; [by eauto 10|].
  pose proof (getCache_world homedir now (cacheKey name (config w)) cfg
                (versionOrDefault (config w)) (cacheWorld w))
    as (Hf & Hfa & _).
  destruct (getCache_total homedir now (cacheKey name (config w)) cfg
              (versionOrDefault (config w)) (cacheWorld w))
    as (r & c & Hrun).
  rewrite Hrun in *. cbn in *.
  destruct r as [d|]; cbn; [destruct (Search.truthyValue d)|]; cbn; eauto 10.
Qed.

(** What the call does once the first block has not returned. *)
Lemma getComponentDocumentation_after_miss homedir now fetchedAt storedAt
    name b w w0 :
  consultCache homedir now name b w = (Ok None, w0) →
  getComponentDocumentation homedir now fetchedAt storedAt name b w
  = match Fetcher.fetchComponentDocFromWebsite name (webWorld w0) with
    | (Throw err, web) => (Throw err, withWeb web w0)
    | (Ok doc, web) =>
        let value := docValue (versionOrDefault (config w0)) fetchedAt doc in
        match cachingDocumentation (config w0) with
        | None => (Ok value, withWeb web w0)
        | Some cfg =>
            match Cache.setCache homedir storedAt (cacheKey name (config w0))
                    value cfg (versionOrDefault (config w0)) (cacheWorld w0)
            with
            | (Ok _, c) => (Ok value, withCache c (withWeb web w0))
            | (Throw err, c) => (Throw err, withCache c (withWeb web w0))
            end
        end
    end.
Proof.
  intros Hmiss. cbv [getComponentDocumentation bind]. rewrite Hmiss.
  cbv [gets liftWeb liftCache ret].
  destruct (Fetcher.fetchComponentDocFromWebsite name (webWorld w0))
    as [[doc|err] web]; [|done].
  destruct (cachingDocumentation (config w0)) as [cfg|]; [|done]. cbv zeta.
  by destruct (Cache.setCache _ _ _ _ _ _ _) as [[[]|err] c].
Qed.

Lemma consultCache_miss_run homedir now name b w :
  (consultCache homedir now name b w).1 = Ok None →
  ∃ w0, consultCache homedir now name b w = (Ok None, w0)
        ∧ webWorld w0 = webWorld w ∧ config w0 = config w
        ∧ Cache.files (cacheWorld w0) = Cache.files (cacheWorld w)
        ∧ Cache.faults (cacheWorld w0) = Cache.faults (cacheWorld w).
Proof.
  intros Hmiss.
  pose proof (consultCache_world homedir now name b w) as (H1 & H2 & H3 & H4 & _).
  destruct (consultCache homedir now name b w) as [r w0]. cbn in *.
  subst r. by exists w0.
Qed.

(** A valid entry of the in-process store is returned with the world
    untouched. *)
Lemma getCache_memory_hit homedir now key cfg ver c e :
  Cache.memoryCache c !! key = Some e →
  Cache.isValidCacheEntry now e (Cache.ttl cfg) ver = true →
  Cache.getCache homedir now key cfg ver c = (Ok (Some (Cache.data e)), c).
Proof.
  intros Hm Hv. unfold Cache.getCache, bind, gets, ret. cbn.
  by rewrite Hm, Hv.
Qed.

(** The call on a world whose in-process store holds a fresh record. *)
Lemma served_from_memory homedir now fetchedAt storedAt name cfg w v t :
  cachingDocumentation (config w) = Some cfg →
  Cache.memoryCache (cacheWorld w) !! cacheKey name (config w)
  = Some {| Cache.data := v; Cache.timestamp := t;
            Cache.version := versionOrDefault (config w) |} →
  Search.truthyValue v = true →
  0 < Cache.ttl cfg →
  now - t < Cache.ttl cfg →
  getComponentDocumentation homedir now fetchedAt storedAt name false w
  = (Ok v, w).
Proof.
  intros Hcfg Hm Ht Hpos Hage.
  cbv [getComponentDocumentation consultCache bind gets liftCache].
  rewrite Hcfg. cbn [negb].
  rewrite (getCache_memory_hit homedir now _ cfg _ _ _ Hm).
  2:{ apply isValidCacheEntry_spec. unfold Spec.valid. cbn.
      repeat split; [lia | done]. }
  cbn. rewrite Ht. cbn. by destruct w.
Qed.

(** X18: once a call has fetched a record and returned it, a later call
    for the same name before [ttl] has elapsed returns the same record
    from the in-process store and does not touch the rendering session,
    whatever the state of the site. *)
Theorem second_call_served_from_cache homedir now fetchedAt storedAt now'
    name b cfg w doc w1 :
  cachingDocumentation (config w) = Some cfg →
  (consultCache homedir now name b w).1 = Ok None →
  getComponentDocumentation homedir now fetchedAt storedAt name b w
  = (Ok doc, w1) →
  0 < Cache.ttl cfg →
  now' - storedAt < Cache.ttl cfg →
  ∀ web fetchedAt' storedAt',
    getComponentDocumentation homedir now' fetchedAt' storedAt' name false
      (withWeb web w1)
    = (Ok doc, withWeb web w1).
Proof.
  intros Hcfg Hmiss Hrun Hpos Hage web fetchedAt' storedAt'.
  destruct (consultCache_miss_run _ _ _ _ _ Hmiss)
    as (w0 & Hc & Hweb & Hconf & _).
  rewrite (getComponentDocumentation_after_miss _ _ _ _ _ _ _ _ Hc) in Hrun.
  destruct (Fetcher.fetchComponentDocFromWebsite name (webWorld w0))
    as [[fetched|err] web0]; [|done].
  rewrite Hconf, Hcfg in Hrun. cbv zeta in Hrun.
  pose proof (setCache_memory homedir storedAt (cacheKey name (config w))
                (docValue (versionOrDefault (config w)) fetchedAt fetched)
                cfg (versionOrDefault (config w)) (cacheWorld w0)) as Hmem.
  destruct (Cache.setCache _ _ _ _ _ _ _) as [[[]|err] c]; [|done].
  injection Hrun as <- <-. cbn in Hmem.
  apply (served_from_memory homedir now' fetchedAt' storedAt' name cfg _ _
           storedAt); cbn; rewrite ?Hconf; try done.
  rewrite Hmem. apply lookup_insert_eq.
Qed.

Lemma second_call_served_from_cache_witness :
  ∃ doc,
    (getComponentDocumentation Fixtures.home 1700000000000 1700000000900
       1700000000901 "button" false MoreFixtures.serviceStart).1 = Ok doc
    ∧ (getComponentDocumentation Fixtures.home 1700000005000 1700000005900
         1700000005901 "button" false
         (withWeb (PageFixtures.start PageFixtures.offline)
            (getComponentDocumentation Fixtures.home 1700000000000
               1700000000900 1700000000901 "button" false
               MoreFixtures.serviceStart).2)).1
      = Ok doc.
Proof.
  destruct (getComponentDocumentation Fixtures.home 1700000000000
              1700000000900 1700000000901 "button" false
              MoreFixtures.serviceStart) as [[doc|err] w1] eqn:Hrun.
  - exists doc. split; [reflexivity|]. cbn [snd].
    by rewrite (second_call_served_from_cache Fixtures.home 1700000000000
                  1700000000900 1700000000901 1700000005000 "button" false
                  Fixtures.defaultCaching MoreFixtures.serviceStart doc w1
                  eq_refl eq_refl Hrun eq_refl eq_refl).
  - vm_compute in Hrun. discriminate Hrun.
Defined.

(** X19: a forced refresh does not look at the cache: whatever is
    cached, when every puppeteer call succeeds, the close included, it
    renders the page, puts the fresh record into the in-process store
    under the key, stamped with the time of the write, and returns that
    record unless the write throws. *)
Theorem forced_refresh_overwrites homedir now fetchedAt storedAt name cfg w :
  cachingDocumentation (config w) = Some cfg →
  Fetcher.launchFails (Fetcher.puppeteer (webWorld w)) = false →
  Fetcher.newPageFails (Fetcher.puppeteer (webWorld w)) = false →
  Fetcher.gotoFails (Fetcher.puppeteer (webWorld w)) = false →
  Fetcher.contentFails (Fetcher.puppeteer (webWorld w)) = false →
  Fetcher.closeFails (Fetcher.puppeteer (webWorld w)) = false →
  ∃ fetched,
    Fetcher.fetchComponentDocFromWebsite name (webWorld w)
    = (Ok fetched, webWorld w)
    ∧ let fresh := docValue (versionOrDefault (config w)) fetchedAt fetched in
      let out := getComponentDocumentation homedir now fetchedAt storedAt
                   name true w in
      (out.1 = Ok fresh ∨ ∃ err, out.1 = Throw err)
      ∧ Cache.memoryCache (cacheWorld out.2) !! cacheKey name (config w)
        = Some {| Cache.data := fresh; Cache.timestamp := storedAt;
                  Cache.version := versionOrDefault (config w) |}
      ∧ ((Cache.setCache homedir storedAt (cacheKey name (config w)) fresh cfg
            (versionOrDefault (config w)) (cacheWorld w)).1 = Ok tt →
         out.1 = Ok fresh).
Proof.
  intros Hcfg H1 H2 H3 H4 H5.
  destruct (fetch_runs_ok name (webWorld w) H1 H2 H3 H4 H5) as (fetched & Hf).
  exists fetched. split; [exact Hf|]. cbv zeta.
  rewrite (getComponentDocumentation_after_miss _ _ _ _ _ _ _ _
             (consultCache_forced homedir now name w)).
  rewrite Hf, Hcfg. cbv zeta.
  pose proof (setCache_memory homedir storedAt (cacheKey name (config w))
                (docValue (versionOrDefault (config w)) fetchedAt fetched)
                cfg (versionOrDefault (config w)) (cacheWorld w)) as Hmem.
  destruct (Cache.setCache _ _ _ _ _ _ _) as [[[]|err] c]; cbn in *;
    rewrite Hmem, lookup_insert_eq; eauto.
  repeat split; [eauto | done].
Qed.

Lemma forced_refresh_overwrites_witness :
  ∃ fresh,
    (getComponentDocumentation Fixtures.home 1700000000000 1700000000900
       1700000000901 "button" true MoreFixtures.serviceStart).1 = Ok fresh.
Proof.
  destruct (forced_refresh_overwrites Fixtures.home 1700000000000
              1700000000900 1700000000901 "button" Fixtures.defaultCaching
              MoreFixtures.serviceStart eq_refl eq_refl eq_refl eq_refl eq_refl
              eq_refl)
    as (fetched & _ & _ & _ & Hok).
  eexists. apply Hok. reflexivity.
Defined.

(** X20: when the rendering fails, the call throws "Failed to fetch
    documentation for <name>: <cause>"; the write is not run: the cache is
    left as the lookup left it, no file is written, and a forced refresh
    leaves the cache exactly as it was. *)
Theorem fetch_failure_propagates homedir now fetchedAt storedAt name b w :
  (consultCache homedir now name b w).1 = Ok None →
  Fetcher.launchFails (Fetcher.puppeteer (webWorld w)) = true
  ∨ Fetcher.newPageFails (Fetcher.puppeteer (webWorld w)) = true
  ∨ Fetcher.gotoFails (Fetcher.puppeteer (webWorld w)) = true
  ∨ Fetcher.contentFails (Fetcher.puppeteer (webWorld w)) = true →
  ∃ cause web,
    getComponentDocumentation homedir now fetchedAt storedAt name b w
    = (Throw ("Failed to fetch documentation for " +:+ name +:+ ": " +:+ cause),
       withWeb web (consultCache homedir now name b w).2)
    ∧ Cache.files (cacheWorld (consultCache homedir now name b w).2)
      = Cache.files (cacheWorld w)
    ∧ (b = true → (consultCache homedir now name b w).2 = w).
Proof.
  intros Hmiss Hfail.
  destruct (consultCache_miss_run _ _ _ _ _ Hmiss)
    as (w0 & Hc & Hweb & Hconf & Hfiles & _).
  rewrite (getComponentDocumentation_after_miss _ _ _ _ _ _ _ _ Hc), Hc.
  rewrite <- Hweb in Hfail.
  destruct (fetch_runs_fail name (webWorld w0) Hfail) as (cause & web & ->).
  exists cause, web. split; [done|]. split; [done|].
  intros ->. rewrite consultCache_forced in Hc. by injection Hc as <-.
Qed.

Lemma fetch_failure_propagates_witness :
  ∃ web,
    getComponentDocumentation Fixtures.home 1700000000000 1700000000900
      1700000000901 "button" false MoreFixtures.serviceOffline
    = (Throw "Failed to fetch documentation for button: net::ERR_CONNECTION_REFUSED at https://mantine.dev/core/button",
       withWeb web MoreFixtures.serviceOffline).
Proof.
  destruct (fetch_failure_propagates Fixtures.home 1700000000000
              1700000000900 1700000000901 "button" false
              MoreFixtures.serviceOffline eq_refl
              (or_intror (or_intror (or_introl eq_refl))))
    as (cause & web & Hrun & _).
  exists web. rewrite Hrun. vm_compute in Hrun. by injection Hrun as <- <-.
Defined.



(** X22: without a caching configuration, or with a [ttl] of 0, no call is
    ever answered from the cache: the first block never returns a record,
    so a failed rendering always fails the call, a stored copy
    notwithstanding; without a caching configuration the cache is not
    touched at all. *)
Theorem disabled_cache_always_fetches homedir now fetchedAt storedAt name b w :
  cachingDocumentation (config w) = None
  ∨ (∃ cfg, cachingDocumentation (config w) = Some cfg ∧ Cache.ttl cfg = 0) →
  (consultCache homedir now name b w).1 = Ok None
  ∧ (Fetcher.launchFails (Fetcher.puppeteer (webWorld w)) = true
     ∨ Fetcher.newPageFails (Fetcher.puppeteer (webWorld w)) = true
     ∨ Fetcher.gotoFails (Fetcher.puppeteer (webWorld w)) = true
     ∨ Fetcher.contentFails (Fetcher.puppeteer (webWorld w)) = true →
     ∃ err, (getComponentDocumentation homedir now fetchedAt storedAt name b
               w).1 = Throw err)
  ∧ (cachingDocumentation (config w) = None →
     cacheWorld (getComponentDocumentation homedir now fetchedAt storedAt
                   name b w).2 = cacheWorld w).
Proof.
  intros Hoff.
  assert (Hmiss : (consultCache homedir now name b w).1 = Ok None).
  { cbv [consultCache bind gets ret liftCache].
    destruct Hoff as [-> | (cfg & -> & Hzero)]; [done|].
    destruct b; cbn [negb]; [done|].
    pose proof (getCache_no_valid_miss homedir now (cacheKey name (config w))
                  cfg (versionOrDefault (config w)) (cacheWorld w)) as Hno.
    destruct (Cache.getCache _ _ _ _ _ _) as [r c]. cbn in *.
    rewrite Hno; [done|]. intros e _ (? & _). done. }
  split; [exact Hmiss|].
  destruct (consultCache_miss_run _ _ _ _ _ Hmiss)
    as (w0 & Hc & Hweb & Hconf & _).
  rewrite (getComponentDocumentation_after_miss _ _ _ _ _ _ _ _ Hc).
  split.
  - intros Hfail. rewrite <- Hweb in Hfail.
    destruct (fetch_runs_fail name (webWorld w0) Hfail) as (cause & web & ->).
    by eexists.
  - intros Hnone.
    assert (Hw0 : w0 = w).
    { revert Hc. cbv [consultCache bind gets ret]. rewrite Hnone.
      by intros [= <-]. }
    subst w0. rewrite Hnone.
    by destruct (Fetcher.fetchComponentDocFromWebsite name (webWorld w))
      as [[doc|err] web].
Qed.

Lemma disabled_cache_always_fetches_witness :
  ∃ err,
    (getComponentDocumentation Fixtures.home 1700000000001 1700000000900
       1700000000901 "button" false MoreFixtures.serviceDisabledOffline).1
    = Throw err.
Proof.
  exact (proj1 (proj2 (disabled_cache_always_fetches Fixtures.home
                         1700000000001 1700000000900 1700000000901 "button"
                         false MoreFixtures.serviceDisabledOffline
                         (or_intror (ex_intro _ Fixtures.disabledCaching
                                       (conj eq_refl eq_refl)))))
           (or_intror (or_intror (or_introl eq_refl)))).
Defined.

End ServiceFacts.
